(** * cri-o: state store, name registries, namespace handles, checkpoint client

    A shallow embedding of
      - internal/lib/container_server.go  (ContainerServer),
      - the sandbox namespace code        (Namespace, pinNamespaces, getNamespace),
      - cmd/crio-cr/main.go               (checkpoint / restore client),
    and the properties the specification states about them.

    Go functions become functions of an explicit state that also return the
    sequence of calls they made on their collaborators (the trace), so that
    statements about the order of effects can be written down. *)

From Stdlib Require Import Ascii.
From stdpp Require Import base option list strings gmap fin_maps.

Local Open Scope string_scope.
Local Open Scope list_scope.

(** ** Go control flow: statements, [return], [defer], panics *)

Module Go.

(** How a statement ends. *)
Inductive outcome (R A : Type) : Type :=
| Next (a : A)      (* falls through to the next statement with value [a] *)
| Ret (r : R)       (* a [return r] statement *)
| Panic.            (* a run-time panic, e.g. a nil dereference *)
Arguments Next {R A} a.
Arguments Ret {R A} r.
Arguments Panic {R A}.

(** How a call ends. *)
Inductive result (R : Type) : Type :=
| Done (r : R)
| Panicked.
Arguments Done {R} r.
Arguments Panicked {R}.

(** A statement of a function returning [R], over state [S], recording
    events [E]. *)
Definition M (S E R A : Type) : Type := S → outcome R A * S * list E.

(** A function (method) returning [R]. *)
Definition Fn (S E R : Type) : Type := S → result R * S * list E.

Section ops.
Context {S E : Type}.

Definition unit_ {R A} (a : A) : M S E R A := λ s, (Next a, s, []).

Definition bind {R A B} (m : M S E R A) (k : A → M S E R B) : M S E R B :=
  λ s, match m s with
       | (Next a, s1, t1) =>
           match k a s1 with (o, s2, t2) => (o, s2, t1 ++ t2) end
       | (Ret r, s1, t1) => (Ret r, s1, t1)
       | (Panic, s1, t1) => (Panic, s1, t1)
       end.

(** [return r] *)
Definition return_ {R A} (r : R) : M S E R A := λ s, (Ret r, s, []).

Definition panic {R A} : M S E R A := λ s, (Panic, s, []).

Definition get {R} : M S E R S := λ s, (Next s, s, []).
Definition gets {R A} (f : S → A) : M S E R A := λ s, (Next (f s), s, []).
Definition modify {R} (f : S → S) : M S E R unit := λ s, (Next tt, f s, []).

(** Record a call on a collaborator. *)
Definition emit {R} (e : E) : M S E R unit := λ s, (Next tt, s, [e]).

(** A function with a result is its body, which leaves by [return] on
    every path (the compiler sees to it), or panics. *)
Definition fn {R} (body : M S E R Empty_set) : Fn S E R :=
  λ s, match body s with
       | (Next a, _, _) => match a with end
       | (Ret r, s1, t1) => (Done r, s1, t1)
       | (Panic, s1, t1) => (Panicked, s1, t1)
       end.

(** A function without result: it leaves by [return] or by reaching the
    end of its body. *)
Definition proc (body : M S E unit unit) : Fn S E unit :=
  λ s, match body s with
       | (Next _, s1, t1) => (Done tt, s1, t1)
       | (Ret _, s1, t1) => (Done tt, s1, t1)
       | (Panic, s1, t1) => (Panicked, s1, t1)
       end.

(** Calling a function from a statement: a panic of the callee unwinds
    through the caller. *)
Definition call {R R'} (f : Fn S E R') : M S E R R' :=
  λ s, match f s with
       | (Done r, s1, t1) => (Next r, s1, t1)
       | (Panicked, s1, t1) => (Panic, s1, t1)
       end.

(** [defer func() { h retErr }()] followed by the rest of the function.
    The deferred closure runs when the function leaves, by a [return] (it
    then sees the value being returned through the named result) or by a
    panic (the named result still holds its zero value). *)
Definition defer_ {R A} (zero : R) (h : R → Fn S E unit) (rest : M S E R A)
  : M S E R A :=
  λ s, match rest s with
       | (Ret r, s1, t1) =>
           match h r s1 with
           | (Done _, s2, t2) => (Ret r, s2, t1 ++ t2)
           | (Panicked, s2, t2) => (Panic, s2, t1 ++ t2)
           end
       | (Panic, s1, t1) =>
           match h zero s1 with
           | (_, s2, t2) => (Panic, s2, t1 ++ t2)
           end
       | (Next a, s1, t1) => (Next a, s1, t1)
       end.
End ops.

#[global] Instance M_ret {S E R} : MRet (M S E R) := λ A, @unit_ S E R A.
#[global] Instance M_bind {S E R} : MBind (M S E R) := λ A B k m, bind m k.

End Go.
Import Go.

(** ** Errors *)

(** An argument of a format string. *)
Inductive farg : Type :=
| FStr (s : string)
| FList (l : list string).

Inductive error : Type :=
| ErrNameReserved                  (* registrar: the name is reserved *)
| ErrIsNonCrioContainer            (* errors.New("non CRI-O container") *)
| ErrExternal (what : string)      (* an error value made by a collaborator *)
| Errorf (format : string) (args : list farg)
                                   (* fmt.Errorf / errors.Errorf, no error argument *)
| ErrorfV (format : string) (args : list farg) (err : error)
                                   (* fmt.Errorf with a trailing [%v] of [err] *)
| Wrap (cause : error) (msg : string).  (* errors.Wrap / errors.Wrapf *)

(** ** The name registrar *)

Module registrar.

(** Modelled from the spec: the name registrar
    (github.com/containers/libpod/pkg/registrar) is not among the sources.
Section 4.1: "reserve(name, id) -> ok | AlreadyReserved, release(name).
    Reservation is exclusive per name; re-reserving the same (name,id) pair is
    idempotent; re-reserving with a different id fails. Release with no prior
    reserve is a no-op."  The registrar is the map from a reserved name to
    the id holding it. *)
Abbreviation Registrar := (gmap string string).

Definition NewRegistrar : Registrar := ∅.

Definition Reserve (name key : string) (r : Registrar) : option error * Registrar :=
  match r !! name with
  | Some k => if decide (k = key) then (None, r) else (Some ErrNameReserved, r)
  | None => (None, <[name := key]> r)
  end.

Definition Release (name : string) (r : Registrar) : Registrar := delete name r.

End registrar.

(** ** Data the code works on *)

(** rspec.Spec (opencontainers/runtime-spec), the fields the daemon reads.
    [Process] and [Linux] are pointers in Go and may be nil. *)
Record LinuxNamespace : Type := { ns_Type : string; ns_Path : string }.
Record Process : Type := { SelinuxLabel : string }.
Record Linux : Type := { MountLabel : string; Namespaces : list LinuxNamespace }.
Record Spec : Type := {
  Annotations : gmap string string;
  spec_Process : option Process;
  spec_Linux : option Linux;
}.

(** [m.Annotations[k]]: the value, or the empty string when the key is absent. *)
Definition ann (m : Spec) (k : string) : string := default "" (Annotations m !! k).

(** Annotation keys, package github.com/containers/libpod/pkg/annotations. *)
Module annotations.
Definition Annotations := "io.kubernetes.cri-o.Annotations".
Definition ContainerID := "io.kubernetes.cri-o.ContainerID".
Definition ContainerName := "io.kubernetes.cri-o.ContainerName".
Definition Created := "io.kubernetes.cri-o.Created".
Definition HostName := "io.kubernetes.cri-o.HostName".
Definition CgroupParent := "io.kubernetes.cri-o.CgroupParent".
Definition NamespaceOptions := "io.kubernetes.cri-o.NamespaceOptions".
Definition SeccompProfilePath := "io.kubernetes.cri-o.SeccompProfilePath".
Definition Image := "io.kubernetes.cri-o.Image".
Definition ImageName := "io.kubernetes.cri-o.ImageName".
Definition ImageRef := "io.kubernetes.cri-o.ImageRef".
Definition KubeName := "io.kubernetes.cri-o.KubeName".
Definition PortMappings := "io.kubernetes.cri-o.PortMappings".
Definition Labels := "io.kubernetes.cri-o.Labels".
Definition LogPath := "io.kubernetes.cri-o.LogPath".
Definition Metadata := "io.kubernetes.cri-o.Metadata".
Definition Name := "io.kubernetes.cri-o.Name".
Definition Namespace := "io.kubernetes.cri-o.Namespace".
Definition PrivilegedRuntime := "io.kubernetes.cri-o.PrivilegedRuntime".
Definition ResolvPath := "io.kubernetes.cri-o.ResolvPath".
Definition HostnamePath := "io.kubernetes.cri-o.HostnamePath".
Definition SandboxID := "io.kubernetes.cri-o.SandboxID".
Definition ShmPath := "io.kubernetes.cri-o.ShmPath".
Definition MountPoint := "io.kubernetes.cri-o.MountPoint".
Definition RuntimeHandler := "io.kubernetes.cri-o.RuntimeHandler".
Definition TTY := "io.kubernetes.cri-o.TTY".
Definition Stdin := "io.kubernetes.cri-o.Stdin".
Definition StdinOnce := "io.kubernetes.cri-o.StdinOnce".
Definition Volumes := "io.kubernetes.cri-o.Volumes".
Definition HostNetwork := "io.kubernetes.cri-o.HostNetwork".
Definition ContainerManager := "io.container.manager".
End annotations.

(** rspec.LinuxNamespaceType *)
Definition NetworkNamespace := "network".
Definition IPCNamespace := "ipc".
Definition UTSNamespace := "uts".
Definition UserNamespace := "user".

(** Namespace kinds of the sandbox package: a string type whose constants the
    tests spell out ("net", "ipc", "uts", "user"). *)
Definition NSType : Type := string.
Definition NETNS : NSType := "net".
Definition IPCNS : NSType := "ipc".
Definition UTSNS : NSType := "uts".
Definition USERNS : NSType := "user".

(** An open namespace handle (nspkg.NetNS): the file descriptor it holds and
    the path it was opened from. *)
Record NS : Type := { Fd : Z; ns_file : string }.

(** type Namespace struct (the embedded sync.Mutex shows as lock events). *)
Record Namespace : Type := {
  ns : option NS;
  closed : bool;
  initialized : bool;
  nsType : NSType;
  nsPath : string;
}.

Definition set_closed (b : bool) (n : Namespace) : Namespace :=
  {| ns := ns n; closed := b; initialized := initialized n;
     nsType := nsType n; nsPath := nsPath n |}.
Definition set_initialized (b : bool) (n : Namespace) : Namespace :=
  {| ns := ns n; closed := closed n; initialized := b;
     nsType := nsType n; nsPath := nsPath n |}.

(** pkg/config Config, the fields read here. *)
Record Config : Type := {
  NamespacesDir : string;
  PinnsPath : string;
  ManageNSLifecycle : bool;
}.

(** ** Calls on collaborators, as they appear in a trace *)

Inductive index : Type := CtrNameIndex | PodNameIndex.
#[global] Instance index_eq_dec : EqDecision index.
Proof. solve_decision. Defined.
Inductive mutex : Type := StateLock | NamespaceMutex.
Inductive store : Type := Containers | InfraContainers | Sandboxes.

Inductive event : Type :=
| EvReserve (i : index) (name key : string) (ok : bool)
| EvRelease (i : index) (name : string)
| EvLock (m : mutex)
| EvUnlock (m : mutex)
| EvStoreAdd (st : store) (id : string)
| EvStoreDelete (st : store) (id : string)
| EvAddSandboxPlatform (id : string)
| EvRemoveSandboxPlatform (id : string)
| EvExec (path : string) (args : list string)
| EvUnmount (path : string) (flags : Z)     (* unix.Unmount *)
| EvUtilsUnmount (path : string)            (* utils.Unmount *)
| EvRemoveAll (path : string)               (* os.RemoveAll *)
| EvNSClose (h : NS)                        (* NetNS.Close *)
| EvIsNSorErr (path : string)
| EvGetNS (path : string)
| EvRPC (method id : string) (ok : bool)    (* a request to the daemon *)
| EvCall (fn : string) (args : list string) (* any other collaborator *)
| EvWarn (msg : string)                     (* logrus.Warn / Warnf *)
| EvStdout (text : string).                 (* fmt.Println / Printf *)

(** unix.MNT_DETACH *)
Definition MNT_DETACH : Z := 2.

(** ** Entities *)

(** Modelled from the spec: internal/oci (Container, its constructor and
    accessors) is not among the sources.  Section 3, "Container": id, name,
    sandbox_id, image, image_name, image_ref, metadata (name+attempt), run_dir,
    persistent_dir, log_path, labels, annotations, kube_annotations,
    mount_point, volumes, spec, tty, stdin, stdin_once, runtime_handler,
    created, stop_signal, seccomp_profile_path and state = {status, pid,
    started_at, finished_at, exit_code, init_pid}. *)
Inductive Status : Type := CREATED | RUNNING | STOPPED | PAUSED.

Record ContainerState : Type := {
  status : Status; pid : Z; started_at : Z; finished_at : Z;
  exit_code : Z; init_pid : Z;
}.

Record ContainerMetadata : Type := { md_name : string; md_attempt : Z }.

Record ContainerVolume : Type := {
  container_path : string; host_path : string; readonly : bool;
}.

(** The arguments of oci.NewContainer, fixed for the life of the container. *)
Record ContainerInfo : Type := {
  ctr_id : string;
  ctr_name : string;
  ctr_run_dir : string;
  ctr_log_path : string;
  ctr_labels : gmap string string;
  ctr_crio_annotations : gmap string string;
  ctr_annotations : gmap string string;
  ctr_image : string;
  ctr_image_name : string;
  ctr_image_ref : string;
  ctr_metadata : option ContainerMetadata;
  ctr_sandbox : string;
  ctr_tty : bool;
  ctr_stdin : bool;
  ctr_stdin_once : bool;
  ctr_runtime_handler : string;
  ctr_dir : string;
  ctr_created : Z;
  ctr_stop_signal : string;
}.

Record Container : Type := {
  ctr_info : ContainerInfo;
  ctr_spec : option Spec;
  ctr_mount_point : string;
  ctr_volumes : list ContainerVolume;
  ctr_seccomp_profile_path : string;
  ctr_state : ContainerState;
  ctr_is_created : bool;
}.

(** Containers compare by value. *)
#[global] Instance LinuxNamespace_eq_dec : EqDecision LinuxNamespace.
Proof. solve_decision. Defined.
#[global] Instance Process_eq_dec : EqDecision Process.
Proof. solve_decision. Defined.
#[global] Instance Linux_eq_dec : EqDecision Linux.
Proof. solve_decision. Defined.
#[global] Instance Spec_eq_dec : EqDecision Spec.
Proof. solve_decision. Defined.
#[global] Instance Status_eq_dec : EqDecision Status.
Proof. solve_decision. Defined.
#[global] Instance ContainerState_eq_dec : EqDecision ContainerState.
Proof. solve_decision. Defined.
#[global] Instance ContainerMetadata_eq_dec : EqDecision ContainerMetadata.
Proof. solve_decision. Defined.
#[global] Instance ContainerVolume_eq_dec : EqDecision ContainerVolume.
Proof. solve_decision. Defined.
#[global] Instance ContainerInfo_eq_dec : EqDecision ContainerInfo.
Proof. solve_decision. Defined.
#[global] Instance Container_eq_dec : EqDecision Container.
Proof. solve_decision. Defined.

(** Modelled from the spec: internal/lib/sandbox (Sandbox) is not among the
    sources.  Section 3, "Sandbox": id, name, namespace, kube_name, log_dir,
    labels, annotations, process_label, mount_label, metadata
    (name+uid+namespace+attempt), shm_path, cgroup_parent, privileged,
    runtime_handler, resolv_path, hostname, hostname_path, port_mappings,
    host_network, namespace_options, seccomp_profile_path, containers (ids,
    ordered by insertion), infra_container (optional), created, state; and
    section 4.3: one recorded namespace handle per managed kind. *)
Record PodSandboxMetadata : Type := {
  pmd_name : string; pmd_uid : string; pmd_namespace : string; pmd_attempt : Z;
}.

Record PortMapping : Type := {
  pm_container : Z; pm_host : Z; pm_protocol : string; pm_host_ip : string;
}.

Record NamespaceOption : Type := {
  opt_host_network : bool; opt_host_pid : bool; opt_host_ipc : bool;
  opt_host_user : bool;
}.

(** The arguments of sandbox.New, fixed for the life of the sandbox. *)
Record SandboxInfo : Type := {
  sb_id : string;
  sb_namespace : string;
  sb_name : string;
  sb_kube_name : string;
  sb_log_dir : string;
  sb_labels : gmap string string;
  sb_annotations : gmap string string;
  sb_process_label : string;
  sb_mount_label : string;
  sb_metadata : PodSandboxMetadata;
  sb_shm_path : string;
  sb_cgroup_parent : string;
  sb_privileged : bool;
  sb_runtime_handler : string;
  sb_resolv_path : string;
  sb_hostname : string;
  sb_port_mappings : list PortMapping;
  sb_host_network : bool;
}.

(** [sb_ns] holds the recorded handle of each namespace kind that has one. *)
Record Sandbox : Type := {
  sb_info : SandboxInfo;
  sb_hostname_path : string;
  sb_seccomp_profile_path : string;
  sb_namespace_options : option NamespaceOption;
  sb_containers : list string;
  sb_infra_container : option Container;
  sb_created : bool;
  sb_stopped : bool;
  sb_ns : gmap string Namespace;
}.

(** ** Collaborators *)

(** What the code calls and this development does not look into: the host
    (file system, mounts, processes, the storage library, the OCI runtime,
    SELinux), the truncated-id index, the decoders of encoding/json and time,
    and the platform half of adding and removing a sandbox.  [Host] is the
    state of everything outside the daemon; a call may change it and may fail. *)
Record Collab (Host TruncIndex : Type) : Type := {
  (* github.com/containernetworking/plugins/pkg/ns *)
  nspkg_IsNSorErr : string → Host → option error * Host;
  nspkg_GetNS : string → Host → (error + NS) * Host;
  nspkg_Close : NS → Host → option error * Host;
  (* the kind of the namespace a path refers to, if it refers to one *)
  nsfs_kind : string → Host → option NSType;
  (* golang.org/x/sys/unix, utils, os, os/exec, uuid, path/filepath *)
  unix_Unmount : string → Z → Host → option error * Host;
  utils_Unmount : string → Host → option error * Host;
  os_RemoveAll : string → Host → option error * Host;
  exec_Output : string → list string → Host → (string * option error) * Host;
  uuid_New : Host → string * Host;
  filepath_Join : list string → string;
  filepath_Dir : string → string;
  (* containers/storage: c.store *)
  store_FromContainerDirectory : string → string → Host → (error + string) * Host;
  store_ContainerRunDirectory : string → Host → (error + string) * Host;
  store_ContainerDirectory : string → Host → (error + string) * Host;
  (* encoding/json and time *)
  json_Spec : string → error + Spec;
  json_StringMap : string → error + gmap string string;
  json_PodSandboxMetadata : string → error + PodSandboxMetadata;
  json_ContainerMetadata : string → error + ContainerMetadata;
  json_PortMappings : string → error + list PortMapping;
  json_NamespaceOption : string → error + NamespaceOption;
  json_Volumes : string → error + list ContainerVolume;
  time_Parse : string → error + Z;
  (* internal/oci and internal/lib/sandbox: what their constructors reject *)
  oci_NewContainer_check : string → string → option error;
  sandbox_New_check : string → string → option error;
  (* ctr.FromDisk, runtime.UpdateContainerStatus, the atomic state writer *)
  ctr_FromDisk : Container → Host → (option error * ContainerState) * Host;
  runtime_UpdateContainerStatus :
    Container → Host → (option error * ContainerState) * Host;
  ioutils_NewAtomicFileWriter : string → Host → option error * Host;
  json_Encode : string → ContainerState → Host → option error * Host;
  file_Close : string → Host → unit * Host;
  (* opencontainers/selinux: label.ReserveLabel, label.ReleaseLabel, and the
     level of a process label, which is read off the label or is an error *)
  label_ReserveLabel : string → Host → option error * Host;
  label_ReleaseLabel : string → Host → unit * Host;
  selinux_level : string → error + string;
  (* containers/storage/pkg/truncindex *)
  truncindex_Add : string → TruncIndex → option error * TruncIndex;
  (* container_server_linux.go: works on the MCS refcounts and SELinux *)
  platform_addSandbox :
    Sandbox → gmap string Z * Host → option error * (gmap string Z * Host);
}.
Arguments nspkg_IsNSorErr {_ _} _.
Arguments nspkg_GetNS {_ _} _.
Arguments nspkg_Close {_ _} _.
Arguments nsfs_kind {_ _} _.
Arguments unix_Unmount {_ _} _.
Arguments utils_Unmount {_ _} _.
Arguments os_RemoveAll {_ _} _.
Arguments exec_Output {_ _} _.
Arguments uuid_New {_ _} _.
Arguments filepath_Join {_ _} _.
Arguments filepath_Dir {_ _} _.
Arguments store_FromContainerDirectory {_ _} _.
Arguments store_ContainerRunDirectory {_ _} _.
Arguments store_ContainerDirectory {_ _} _.
Arguments json_Spec {_ _} _.
Arguments json_StringMap {_ _} _.
Arguments json_PodSandboxMetadata {_ _} _.
Arguments json_ContainerMetadata {_ _} _.
Arguments json_PortMappings {_ _} _.
Arguments json_NamespaceOption {_ _} _.
Arguments json_Volumes {_ _} _.
Arguments time_Parse {_ _} _.
Arguments oci_NewContainer_check {_ _} _.
Arguments sandbox_New_check {_ _} _.
Arguments ctr_FromDisk {_ _} _.
Arguments runtime_UpdateContainerStatus {_ _} _.
Arguments ioutils_NewAtomicFileWriter {_ _} _.
Arguments json_Encode {_ _} _.
Arguments file_Close {_ _} _.
Arguments label_ReserveLabel {_ _} _.
Arguments label_ReleaseLabel {_ _} _.
Arguments selinux_level {_ _} _.
Arguments truncindex_Add {_ _} _.
Arguments platform_addSandbox {_ _} _.

(** Statements shared by all the code below. *)
Section statements.
Context {S R : Type}.

(** [if err != nil { return f err }] *)
Definition check (err : option error) (f : error → R) : M S event R unit :=
  match err with Some e => return_ (f e) | None => mret tt end.

(** [x, err := ...; if err != nil { return f err }] *)
Definition try_ {A} (x : error + A) (f : error → R) : M S event R A :=
  match x with inl e => return_ (f e) | inr a => mret a end.

(** [if c { return r }] *)
Definition return_if (c : bool) (r : R) : M S event R unit :=
  if c then return_ r else mret tt.

(** A call on the host, reached through [geth]/[seth], recorded as [e]. *)
Definition host_call {Host A} (geth : S → Host) (seth : Host → S → S)
    (e : event) (f : Host → A * Host) : M S event R A :=
  λ s, match f (geth s) with (a, h) => (Next a, seth h s, [e]) end.
End statements.

(** ** The oci package: containers *)

Module oci.

(** Modelled from the spec: accessors and setters of oci.Container
    (internal/oci is not among the sources); each reads or writes the one
    attribute of section 3 it is named after. *)
Definition ID (c : Container) : string := ctr_id (ctr_info c).
Definition Name (c : Container) : string := ctr_name (ctr_info c).
Definition Sandbox (c : Container) : string := ctr_sandbox (ctr_info c).
Definition State (c : Container) : ContainerState := ctr_state c.

Definition NewContainer (info : ContainerInfo) : Container :=
  {| ctr_info := info; ctr_spec := None; ctr_mount_point := "";
     ctr_volumes := []; ctr_seccomp_profile_path := "";
     ctr_state := {| status := CREATED; pid := 0; started_at := 0;
                     finished_at := 0; exit_code := 0; init_pid := 0 |};
     ctr_is_created := false |}.

Definition SetSpec (m : Spec) (c : Container) : Container :=
  {| ctr_info := ctr_info c; ctr_spec := Some m;
     ctr_mount_point := ctr_mount_point c; ctr_volumes := ctr_volumes c;
     ctr_seccomp_profile_path := ctr_seccomp_profile_path c;
     ctr_state := ctr_state c; ctr_is_created := ctr_is_created c |}.
Definition SetMountPoint (mp : string) (c : Container) : Container :=
  {| ctr_info := ctr_info c; ctr_spec := ctr_spec c;
     ctr_mount_point := mp; ctr_volumes := ctr_volumes c;
     ctr_seccomp_profile_path := ctr_seccomp_profile_path c;
     ctr_state := ctr_state c; ctr_is_created := ctr_is_created c |}.
Definition AddVolume (v : ContainerVolume) (c : Container) : Container :=
  {| ctr_info := ctr_info c; ctr_spec := ctr_spec c;
     ctr_mount_point := ctr_mount_point c; ctr_volumes := ctr_volumes c ++ [v];
     ctr_seccomp_profile_path := ctr_seccomp_profile_path c;
     ctr_state := ctr_state c; ctr_is_created := ctr_is_created c |}.
Definition SetSeccompProfilePath (pp : string) (c : Container) : Container :=
  {| ctr_info := ctr_info c; ctr_spec := ctr_spec c;
     ctr_mount_point := ctr_mount_point c; ctr_volumes := ctr_volumes c;
     ctr_seccomp_profile_path := pp;
     ctr_state := ctr_state c; ctr_is_created := ctr_is_created c |}.
Definition SetState (st : ContainerState) (c : Container) : Container :=
  {| ctr_info := ctr_info c; ctr_spec := ctr_spec c;
     ctr_mount_point := ctr_mount_point c; ctr_volumes := ctr_volumes c;
     ctr_seccomp_profile_path := ctr_seccomp_profile_path c;
     ctr_state := st; ctr_is_created := ctr_is_created c |}.
Definition SetCreated (c : Container) : Container :=
  {| ctr_info := ctr_info c; ctr_spec := ctr_spec c;
     ctr_mount_point := ctr_mount_point c; ctr_volumes := ctr_volumes c;
     ctr_seccomp_profile_path := ctr_seccomp_profile_path c;
     ctr_state := ctr_state c; ctr_is_created := true |}.

(** Modelled from the spec: the memory store of section 4.2, a map from id
    to entity with add, get, delete and list. *)
Definition Add {V} (id : string) (v : V) (m : gmap string V) := <[id := v]> m.
Definition Get {V} (id : string) (m : gmap string V) : option V := m !! id.
Definition Delete {V} (id : string) (m : gmap string V) := delete id m.
Definition List {V} (m : gmap string V) : list V := (map_to_list m).*2.

End oci.

(** ** The sandbox package: namespace handles (namespaces_linux.go) *)

Module sandbox.

(** Modelled from the spec: accessors and setters of Sandbox (see the record). *)
Definition ID (s : Sandbox) : string := sb_id (sb_info s).
Definition RuntimeHandler (s : Sandbox) : string := sb_runtime_handler (sb_info s).
Definition ProcessLabel (s : Sandbox) : string := sb_process_label (sb_info s).

Definition New (info : SandboxInfo) : Sandbox :=
  {| sb_info := info; sb_hostname_path := ""; sb_seccomp_profile_path := "";
     sb_namespace_options := None; sb_containers := [];
     sb_infra_container := None; sb_created := false; sb_stopped := false;
     sb_ns := ∅ |}.

Definition AddHostnamePath (hp : string) (s : Sandbox) : Sandbox :=
  {| sb_info := sb_info s; sb_hostname_path := hp;
     sb_seccomp_profile_path := sb_seccomp_profile_path s;
     sb_namespace_options := sb_namespace_options s;
     sb_containers := sb_containers s;
     sb_infra_container := sb_infra_container s;
     sb_created := sb_created s; sb_stopped := sb_stopped s; sb_ns := sb_ns s |}.
Definition SetSeccompProfilePath (pp : string) (s : Sandbox) : Sandbox :=
  {| sb_info := sb_info s; sb_hostname_path := sb_hostname_path s;
     sb_seccomp_profile_path := pp;
     sb_namespace_options := sb_namespace_options s;
     sb_containers := sb_containers s;
     sb_infra_container := sb_infra_container s;
     sb_created := sb_created s; sb_stopped := sb_stopped s; sb_ns := sb_ns s |}.
Definition SetNamespaceOptions (o : NamespaceOption) (s : Sandbox) : Sandbox :=
  {| sb_info := sb_info s; sb_hostname_path := sb_hostname_path s;
     sb_seccomp_profile_path := sb_seccomp_profile_path s;
     sb_namespace_options := Some o;
     sb_containers := sb_containers s;
     sb_infra_container := sb_infra_container s;
     sb_created := sb_created s; sb_stopped := sb_stopped s; sb_ns := sb_ns s |}.
Definition set_containers (l : list string) (s : Sandbox) : Sandbox :=
  {| sb_info := sb_info s; sb_hostname_path := sb_hostname_path s;
     sb_seccomp_profile_path := sb_seccomp_profile_path s;
     sb_namespace_options := sb_namespace_options s;
     sb_containers := l;
     sb_infra_container := sb_infra_container s;
     sb_created := sb_created s; sb_stopped := sb_stopped s; sb_ns := sb_ns s |}.
Definition set_infra (i : option Container) (s : Sandbox) : Sandbox :=
  {| sb_info := sb_info s; sb_hostname_path := sb_hostname_path s;
     sb_seccomp_profile_path := sb_seccomp_profile_path s;
     sb_namespace_options := sb_namespace_options s;
     sb_containers := sb_containers s;
     sb_infra_container := i;
     sb_created := sb_created s; sb_stopped := sb_stopped s; sb_ns := sb_ns s |}.
Definition SetCreated (s : Sandbox) : Sandbox :=
  {| sb_info := sb_info s; sb_hostname_path := sb_hostname_path s;
     sb_seccomp_profile_path := sb_seccomp_profile_path s;
     sb_namespace_options := sb_namespace_options s;
     sb_containers := sb_containers s;
     sb_infra_container := sb_infra_container s;
     sb_created := true; sb_stopped := sb_stopped s; sb_ns := sb_ns s |}.
Definition set_stopped (b : bool) (s : Sandbox) : Sandbox :=
  {| sb_info := sb_info s; sb_hostname_path := sb_hostname_path s;
     sb_seccomp_profile_path := sb_seccomp_profile_path s;
     sb_namespace_options := sb_namespace_options s;
     sb_containers := sb_containers s;
     sb_infra_container := sb_infra_container s;
     sb_created := sb_created s; sb_stopped := b; sb_ns := sb_ns s |}.
Definition set_sb_ns (v : gmap string Namespace) (s : Sandbox) : Sandbox :=
  {| sb_info := sb_info s; sb_hostname_path := sb_hostname_path s;
     sb_seccomp_profile_path := sb_seccomp_profile_path s;
     sb_namespace_options := sb_namespace_options s;
     sb_containers := sb_containers s;
     sb_infra_container := sb_infra_container s;
     sb_created := sb_created s; sb_stopped := sb_stopped s; sb_ns := v |}.

(** Modelled from the spec, section 4.2: "Adding a container also appends it
    to the owning sandbox's container list; deleting removes it from that
    list." *)
Definition AddContainer (c : Container) (s : Sandbox) : Sandbox :=
  set_containers (sb_containers s ++ [oci.ID c]) s.
Definition RemoveContainer (c : Container) (s : Sandbox) : Sandbox :=
  set_containers (filter (λ i, i ≠ oci.ID c) (sb_containers s)) s.

(** Modelled from the spec, section 3: "infra_container (optional)"; a
    sandbox takes one infra container. *)
Definition SetInfraContainer (c : Container) (s : Sandbox)
  : option error * Sandbox :=
  match sb_infra_container s with
  | Some _ => (Some (Errorf "sandbox already has an infra container" []), s)
  | None => (None, set_infra (Some c) s)
  end.

(** Modelled from the spec, section 3: the sandbox state is STOPPED when its
    infra container is found stopped. *)
Definition RestoreStopped (s : Sandbox) : Sandbox :=
  match sb_infra_container s with
  | Some c => match status (oci.State c) with
              | STOPPED => set_stopped true s
              | _ => s
              end
  | None => s
  end.
Section code.
Context {Host TruncIndex : Type} (ops : Collab Host TruncIndex).

(** Functions run on the host alone. *)
Definition on_host {R A} (e : event) (f : Host → A * Host) : M Host event R A :=
  host_call (λ h, h) (λ h _, h) e f.


(** func (n *Namespace) Initialized() bool *)
Definition Initialized (n : Namespace) : bool := initialized n.

(** func (n *Namespace) Initialize() NamespaceIface *)
Definition Initialize (n : Namespace) : Namespace :=
  set_initialized true (set_closed false n).

(** The literal map [typeToArg] of pinNamespaces. *)
Definition typeToArg (t : NSType) : option string :=
  if decide (t = IPCNS) then Some "-i"
  else if decide (t = UTSNS) then Some "-u"
  else if decide (t = USERNS) then Some "-U"
  else if decide (t = NETNS) then Some "-n"
  else None.

Record namespaceInfo : Type := { path : string; info_nsType : NSType }.

(** The path pinns is asked to mount a namespace of kind [nsType] at. *)
Definition pinned_path (cfg : Config) (pinnedNamespace : string) (nsType : NSType)
  : string :=
  filepath_Join ops [NamespacesDir cfg; nsType +:+ "ns"; pinnedNamespace].

Definition R_pin : Type := option (list Namespace) * option error.

(** for _, nsType := range nsTypes { ... }: the arguments and would-be paths *)
Fixpoint pinns_arguments (cfg : Config) (pinnedNamespace : string)
    (nsTypes : list NSType) (pinnsArgs : list string)
    (mountedNamespaces : list namespaceInfo)
  : M Host event R_pin (list string * list namespaceInfo) :=
  match nsTypes with
  | [] => mret (pinnsArgs, mountedNamespaces)
  | nsType :: rest =>
      match typeToArg nsType with
      | None =>
          return_ (None, Some (Errorf "Invalid namespace type: %s" [FStr nsType]))
      | Some arg =>
          pinns_arguments cfg pinnedNamespace rest (pinnsArgs ++ [arg])
            (mountedNamespaces ++
               [{| path := pinned_path cfg pinnedNamespace nsType;
                   info_nsType := nsType |}])
      end
  end.

(** for _, info := range mountedNamespaces { unix.Unmount(..., MNT_DETACH) } *)
Fixpoint cleanup_mounts (mountedNamespaces : list namespaceInfo)
    (failedUmounts : list string) : M Host event R_pin (list string) :=
  match mountedNamespaces with
  | [] => mret failedUmounts
  | info :: rest =>
      unmountErr ← on_host (EvUnmount (path info) MNT_DETACH)
                     (unix_Unmount ops (path info) MNT_DETACH);
      cleanup_mounts rest
        (match unmountErr with
         | Some _ => failedUmounts ++ [path info]
         | None => failedUmounts
         end)
  end.

(** What the host answers to a detaching unmount of each of [paths], asked
    in this order, and the host afterwards. *)
Fixpoint unmount_each (paths : list string) (h : Host)
  : list (string * option error) * Host :=
  match paths with
  | [] => ([], h)
  | p :: rest =>
      let '(unmountErr, h1) := unix_Unmount ops p MNT_DETACH h in
      let '(answers, h2) := unmount_each rest h1 in
      ((p, unmountErr) :: answers, h2)
  end.

(** The paths whose unmount was answered with an error. *)
Definition not_unmounted (answers : list (string * option error)) : list string :=
  omap (λ a, match a.2 with Some _ => Some a.1 | None => None end) answers.

(** for _, info := range mountedNamespaces { nspkg.GetNS(info.path) ... } *)
Fixpoint open_namespaces (mountedNamespaces : list namespaceInfo)
    (returnedNamespaces : list Namespace) : M Host event R_pin (list Namespace) :=
  match mountedNamespaces with
  | [] => mret returnedNamespaces
  | info :: rest =>
      r ← on_host (EvGetNS (path info)) (nspkg_GetNS ops (path info));
      ret ← try_ r (λ err, (None, Some err));
      open_namespaces rest
        (returnedNamespaces ++
           [{| ns := Some ret; closed := false; initialized := false;
               nsType := info_nsType info; nsPath := path info |}])
  end.

(** func pinNamespaces(nsTypes []NSType, cfg *config.Config)
      ([]NamespaceIface, error) *)
Definition pinNamespaces (nsTypes : list NSType) (cfg : Config)
  : Fn Host event R_pin :=
  fn (
    pinnedNamespace ← on_host (EvCall "uuid.New" []) (uuid_New ops);
    '(pinnsArgs, mountedNamespaces) ←
      pinns_arguments cfg pinnedNamespace nsTypes
        ["-d"; NamespacesDir cfg; "-f"; pinnedNamespace] [];
    let pinns := PinnsPath cfg in
    '(output, err) ← on_host (EvExec pinns pinnsArgs)
                        (exec_Output ops pinns pinnsArgs);
    match err with
    | Some err =>
        (* cleanup after ourselves *)
        failedUmounts ← cleanup_mounts mountedNamespaces [];
        return_if (negb (Nat.eqb (length failedUmounts) 0))
          (None, Some (ErrorfV "failed to cleanup %v after pinns failure %s %v"
                         [FList failedUmounts; FStr output] err));;
        return_ (None, Some (ErrorfV "failed to pin namespaces %v: %s %v"
                               [FList nsTypes; FStr output] err))
    | None =>
        returnedNamespaces ← open_namespaces mountedNamespaces [];
        return_ (Some returnedNamespaces, None)
    end).

(** func getNamespace(nsPath string), returning a *Namespace and an error *)
Definition getNamespace (nsPath : string)
  : Fn Host event (option Namespace * option error) :=
  fn (
    err ← on_host (EvIsNSorErr nsPath) (nspkg_IsNSorErr ops nsPath);
    check err (λ err, (None, Some err));;
    r ← on_host (EvGetNS nsPath) (nspkg_GetNS ops nsPath);
    ns ← try_ r (λ err, (None, Some err));
    return_ (Some {| ns := Some ns; closed := false; initialized := false;
                     nsType := ""; nsPath := nsPath |}, None)).


(** func (n *Namespace) Type() NSType *)
Definition Type_ (n : Namespace) : NSType := nsType n.



(** Modelled from the spec: the joins of a sandbox (NetNsJoin, IpcNsJoin,
    UtsNsJoin, UserNsJoin) and nsJoin are not among the sources; only
    getNamespace and the tests of the joins are.  Section 4.3, "Joining":
    "Given a path, verify it refers to a namespace of the expected kind; if
    the sandbox already has a managed handle of that kind, fail. Otherwise
    record it (non-owning — removal must not delete externally supplied
    paths)."  The three steps are taken in the order of these words: the
    kind of the namespace at the path is asked of the host and compared
    with the expected one; a handle already held makes the join fail; and
    the record is the one getNamespace, as the source has it, makes for the
    path. *)
Definition nsJoin (nsPath : string) (nsType : NSType)
    (currentIface : option Namespace)
  : Fn Host event (option Namespace * option error) :=
  fn (
    kind ← gets (nsfs_kind ops nsPath);
    return_if (negb (bool_decide (kind = Some nsType)))
      (None, Some (Errorf "%s is not the path of a %s namespace"
                     [FStr nsPath; FStr nsType]));;
    match currentIface with
    | Some _ =>
        return_ (currentIface,
                 Some (Errorf "sandbox already has a %s namespace, cannot join another"
                         [FStr nsType]))
    | None =>
        r ← call (getNamespace nsPath);
        return_ r
    end).

(** Modelled from the spec (see [nsJoin]): join the slot of kind [k]; the
    handle is recorded only when the join succeeds. *)
Definition join (k : NSType) (nspath : string)
  : Fn (Sandbox * Host) event (option error) :=
  fn (
    s ← gets fst;
    '(ns, err) ← (λ st, match nsJoin nspath k (sb_ns s !! k) st.2 with
                        | (Done r, h, t) => (Next r, (st.1, h), t)
                        | (Panicked, h, t) => (Panic, (st.1, h), t)
                        end);
    check err Some;;
    match ns with
    | Some ns => modify (λ st, (set_sb_ns (<[k := ns]> (sb_ns st.1)) st.1, st.2))
    | None => mret tt
    end;;
    return_ err).

Definition NetNsJoin := join NETNS.
Definition IpcNsJoin := join IPCNS.
Definition UtsNsJoin := join UTSNS.
Definition UserNsJoin := join USERNS.
End code.
End sandbox.

(** ** The lib package: ContainerServer (container_server.go) *)

Module lib.

(** ContainerManagerCRIO: the value of io.container.manager that marks a
    container created by this daemon. *)
Definition ContainerManagerCRIO := "cri-o".

(** type containerServerState struct *)
Record containerServerState : Type := {
  containers : gmap string Container;
  infraContainers : gmap string Container;
  sandboxes : gmap string Sandbox;
  (* the number of sandboxes using the same SELinux MCS level *)
  processLevels : gmap string Z;
}.

Definition set_containers v (st : containerServerState) :=
  {| containers := v; infraContainers := infraContainers st;
     sandboxes := sandboxes st; processLevels := processLevels st |}.
Definition set_infraContainers v (st : containerServerState) :=
  {| containers := containers st; infraContainers := v;
     sandboxes := sandboxes st; processLevels := processLevels st |}.
Definition set_sandboxes v (st : containerServerState) :=
  {| containers := containers st; infraContainers := infraContainers st;
     sandboxes := v; processLevels := processLevels st |}.
Definition set_processLevels v (st : containerServerState) :=
  {| containers := containers st; infraContainers := infraContainers st;
     sandboxes := sandboxes st; processLevels := v |}.

Definition isTrue (annotaton : string) : bool := String.eqb annotaton "true".

(** for _, ns := range spec.Linux.Namespaces { ... } *)
Fixpoint configNsPath_range (namespaces : list LinuxNamespace) (nsType : string)
  : string * option error :=
  match namespaces with
  | [] => ("", Some (Errorf "missing networking namespace" []))
  | ns :: rest =>
      if negb (String.eqb (ns_Type ns) nsType) then configNsPath_range rest nsType
      else if String.eqb (ns_Path ns) "" then
        ("", Some (Errorf "empty networking namespace" []))
      else (ns_Path ns, None)
  end.

Section code.
Context {Host TruncIndex : Type} (ops : Collab Host TruncIndex).

(** type ContainerServer struct.  [host] stands for what the handles
    c.runtime, c.store and the storage servers reach. *)
Record ContainerServer : Type := {
  host : Host;
  ctrNameIndex : registrar.Registrar;
  ctrIDIndex : TruncIndex;
  podNameIndex : registrar.Registrar;
  podIDIndex : TruncIndex;
  state : containerServerState;
  config : Config;
}.

Definition set_host v (c : ContainerServer) :=
  {| host := v; ctrNameIndex := ctrNameIndex c; ctrIDIndex := ctrIDIndex c;
     podNameIndex := podNameIndex c; podIDIndex := podIDIndex c;
     state := state c; config := config c |}.
Definition set_ctrNameIndex v (c : ContainerServer) :=
  {| host := host c; ctrNameIndex := v; ctrIDIndex := ctrIDIndex c;
     podNameIndex := podNameIndex c; podIDIndex := podIDIndex c;
     state := state c; config := config c |}.
Definition set_ctrIDIndex v (c : ContainerServer) :=
  {| host := host c; ctrNameIndex := ctrNameIndex c; ctrIDIndex := v;
     podNameIndex := podNameIndex c; podIDIndex := podIDIndex c;
     state := state c; config := config c |}.
Definition set_podNameIndex v (c : ContainerServer) :=
  {| host := host c; ctrNameIndex := ctrNameIndex c; ctrIDIndex := ctrIDIndex c;
     podNameIndex := v; podIDIndex := podIDIndex c;
     state := state c; config := config c |}.
Definition set_podIDIndex v (c : ContainerServer) :=
  {| host := host c; ctrNameIndex := ctrNameIndex c; ctrIDIndex := ctrIDIndex c;
     podNameIndex := podNameIndex c; podIDIndex := v;
     state := state c; config := config c |}.
Definition set_state v (c : ContainerServer) :=
  {| host := host c; ctrNameIndex := ctrNameIndex c; ctrIDIndex := ctrIDIndex c;
     podNameIndex := podNameIndex c; podIDIndex := podIDIndex c;
     state := v; config := config c |}.

Abbreviation Stmt R A := (M ContainerServer event R A).
Abbreviation Func R := (Fn ContainerServer event R).

(** *** Calls on the fields of the server *)

Definition on_host {R A} (e : event) (f : Host → A * Host) : Stmt R A :=
  host_call host set_host e f.

(** A method of a local object [o] that also works on the host; the object,
    as the call leaves it, is returned with the result. *)
Definition with_obj {O R A} (o : O) (f : Fn (O * Host) event A) : Stmt R (A * O) :=
  λ c, match f (o, host c) with
       | (Done a, (o', h), t) => (Next (a, o'), set_host h c, t)
       | (Panicked, (o', h), t) => (Panic, set_host h c, t)
       end.

(** Dereferencing a pointer that may be nil. *)
Definition deref {R A} (p : option A) : Stmt R A :=
  match p with Some a => mret a | None => panic end.

Definition name_index (i : index) (c : ContainerServer) : registrar.Registrar :=
  match i with CtrNameIndex => ctrNameIndex c | PodNameIndex => podNameIndex c end.
Definition set_name_index (i : index) v (c : ContainerServer) :=
  match i with
  | CtrNameIndex => set_ctrNameIndex v c
  | PodNameIndex => set_podNameIndex v c
  end.

(** c.ctrNameIndex.Reserve(name, key), c.podNameIndex.Reserve(name, key) *)
Definition index_Reserve {R} (i : index) (name key : string) : Stmt R (option error) :=
  λ c, match registrar.Reserve name key (name_index i c) with
       | (err, r) =>
           (Next err, set_name_index i r c,
            [EvReserve i name key (if err is Some _ then false else true)])
       end.

(** c.ctrNameIndex.Release(name), c.podNameIndex.Release(name) *)
Definition index_Release {R} (i : index) (name : string) : Stmt R unit :=
  λ c, (Next tt, set_name_index i (registrar.Release name (name_index i c)) c,
        [EvRelease i name]).

(** c.ctrIDIndex.Add(id), c.podIDIndex.Add(id) *)
Definition ctrIDIndex_Add {R} (id : string) : Stmt R (option error) :=
  λ c, match truncindex_Add ops id (ctrIDIndex c) with
       | (err, t) => (Next err, set_ctrIDIndex t c, [EvCall "ctrIDIndex.Add" [id]])
       end.
Definition podIDIndex_Add {R} (id : string) : Stmt R (option error) :=
  λ c, match truncindex_Add ops id (podIDIndex c) with
       | (err, t) => (Next err, set_podIDIndex t c, [EvCall "podIDIndex.Add" [id]])
       end.

(** *** Names *)

(** ReserveContainerName holds a name for a container that is being created *)
Definition ReserveContainerName (id name : string) : Func (string * option error) :=
  fn (
    err ← index_Reserve CtrNameIndex name id;
    match err with
    | Some err =>
        let err := ErrorfV "error reserving ctr name %s for id %s: %v"
                     [FStr name; FStr id] err in
        emit (EvWarn "error reserving ctr name %s for id %s: %v");;
        return_ ("", Some err)
    | None => return_ (name, None)
    end).

(** ReleaseContainerName releases a container name from the index *)
Definition ReleaseContainerName (name : string) : Func unit :=
  proc (index_Release CtrNameIndex name).

(** ReservePodName holds a name for a pod that is being created *)
Definition ReservePodName (id name : string) : Func (string * option error) :=
  fn (
    err ← index_Reserve PodNameIndex name id;
    match err with
    | Some err =>
        let err := ErrorfV "error reserving pod name %s for id %s: %v"
                     [FStr name; FStr id] err in
        emit (EvWarn "error reserving pod name %s for id %s: %v");;
        return_ ("", Some err)
    | None => return_ (name, None)
    end).

(** ReleasePodName releases a pod name from the index *)
Definition ReleasePodName (name : string) : Func unit :=
  proc (index_Release PodNameIndex name).

(** *** The state store *)

Definition modify_state {R} (f : containerServerState → containerServerState)
  : Stmt R unit :=
  modify (λ c, set_state (f (state c)) c).

(** AddContainer adds a container to the container state store *)
Definition AddContainer (ctr : Container) : Func unit :=
  proc (
    newSandbox ← gets (λ c, oci.Get (oci.Sandbox ctr) (sandboxes (state c)));
    match newSandbox with
    | None => return_ tt
    | Some newSandbox =>
        (* newSandbox.AddContainer(ctr), on the sandbox the store points to *)
        modify_state (λ st, set_sandboxes
          (<[oci.Sandbox ctr := sandbox.AddContainer ctr newSandbox]> (sandboxes st)) st);;
        emit (EvStoreAdd Containers (oci.ID ctr));;
        modify_state (λ st, set_containers (oci.Add (oci.ID ctr) ctr (containers st)) st)
    end).

(** AddInfraContainer adds a container to the container state store *)
Definition AddInfraContainer (ctr : Container) : Func unit :=
  proc (
    emit (EvStoreAdd InfraContainers (oci.ID ctr));;
    modify_state (λ st, set_infraContainers
                          (oci.Add (oci.ID ctr) ctr (infraContainers st)) st)).

(** GetContainer returns a container by its ID *)
Definition GetContainer (id : string) : Func (option Container) :=
  fn (r ← gets (λ c, oci.Get id (containers (state c))); return_ r).

(** GetInfraContainer returns a container by its ID *)
Definition GetInfraContainer (id : string) : Func (option Container) :=
  fn (r ← gets (λ c, oci.Get id (infraContainers (state c))); return_ r).

(** HasContainer checks if a container exists in the state *)
Definition HasContainer (id : string) : Func bool :=
  fn (r ← gets (λ c, if oci.Get id (containers (state c)) is Some _ then true else false); return_ r).

(** RemoveContainer removes a container from the container state store *)
Definition RemoveContainer (ctr : Container) : Func unit :=
  proc (
    let sbID := oci.Sandbox ctr in
    sb ← gets (λ c, oci.Get sbID (sandboxes (state c)));
    match sb with
    | None => return_ tt
    | Some sb =>
        (* sb.RemoveContainer(ctr), on the sandbox the store points to *)
        modify_state (λ st, set_sandboxes
          (<[sbID := sandbox.RemoveContainer ctr sb]> (sandboxes st)) st);;
        emit (EvStoreDelete Containers (oci.ID ctr));;
        modify_state (λ st, set_containers (oci.Delete (oci.ID ctr) (containers st)) st)
    end).

(** RemoveInfraContainer removes a container from the container state store *)
Definition RemoveInfraContainer (ctr : Container) : Func unit :=
  proc (
    emit (EvStoreDelete InfraContainers (oci.ID ctr));;
    modify_state (λ st, set_infraContainers
                          (oci.Delete (oci.ID ctr) (infraContainers st)) st)).

(** listContainers returns a list of all containers stored by the server state *)
Definition listContainers : Func (list Container) :=
  fn (r ← gets (λ c, oci.List (containers (state c))); return_ r).

(** for _, filter := range filters { if filter(container) { append } } *)
Fixpoint range_filters (container : Container) (filters : list (Container → bool))
    (filteredContainers : list Container) : list Container :=
  match filters with
  | [] => filteredContainers
  | filter :: rest =>
      range_filters container rest
        (if filter container then filteredContainers ++ [container]
         else filteredContainers)
  end.

(** for _, container := range containers { ... } *)
Fixpoint range_containers (containers : list Container)
    (filters : list (Container → bool)) (filteredContainers : list Container)
  : list Container :=
  match containers with
  | [] => filteredContainers
  | container :: rest =>
      range_containers rest filters
        (range_filters container filters filteredContainers)
  end.

(** ListContainers returns a list of all containers stored by the server
    state that match the given filter function *)
Definition ListContainers (filters : list (Container → bool))
  : Func (list Container * option error) :=
  fn (
    containers ← call listContainers;
    return_if (Nat.eqb (length filters) 0) (containers, None);;
    let filteredContainers := [] in
    return_ (range_containers containers filters filteredContainers, None)).

(** addSandboxPlatform (container_server_linux.go) *)
Definition addSandboxPlatform (sb : Sandbox) : Func (option error) :=
  fn (λ c,
    match platform_addSandbox ops sb (processLevels (state c), host c) with
    | (err, (pl, h)) =>
        (Ret err, set_host h (set_state (set_processLevels pl (state c)) c),
         [EvAddSandboxPlatform (sandbox.ID sb)])
    end).

(** Modelled from the spec: removeSandboxPlatform, the platform cleanup that
    RemoveSandbox calls, is in container_server_linux.go, which is not among
    the sources.  Section 4.2 has, beside the three maps, "a map MCS-level →
    refcount", and: "Sandbox-removal is a two-step operation: first platform
    cleanup (§4.3), then map deletion; both steps happen under the store's
    serializing lock."  Section 5, RemoveSandbox: "decrement MCS refcount
    (release level if 0)".  (I5): "MCS refcount for a SELinux level is > 0
    iff at least one sandbox uses it; reaching 0 releases the level."  (P2):
    "∀ failed lifecycle operation, the post-state equals the pre-state modulo
    log output (no half-materialized entity)."  The level is that of the
    sandbox's process label (section 3: "process_label (SELinux)"); reading it
    off the label is the one step that can fail, and it comes before any
    change, as (P2) asks. *)
Definition removeSandboxPlatform (sb : Sandbox) : Func (option error) :=
  fn (
    emit (EvRemoveSandboxPlatform (sandbox.ID sb));;
    let processLabel := sandbox.ProcessLabel sb in
    level ← try_ (selinux_level ops processLabel) Some;
    pl ← gets (λ c, processLevels (state c) !! level);
    match pl with
    | Some pl =>
        modify_state (λ st,
          set_processLevels (<[level := (pl - 1)%Z]> (processLevels st)) st);;
        if (pl - 1 =? 0)%Z then
          on_host (EvCall "label.ReleaseLabel" [processLabel])
            (label_ReleaseLabel ops processLabel);;
          modify_state (λ st,
            set_processLevels (delete level (processLevels st)) st)
        else mret tt
    | None => mret tt
    end;;
    return_ None).

(** AddSandbox adds a sandbox to the sandbox state store *)
Definition AddSandbox (sb : Sandbox) : Func (option error) :=
  fn (
    emit (EvStoreAdd Sandboxes (sandbox.ID sb));;
    modify_state (λ st, set_sandboxes (oci.Add (sandbox.ID sb) sb (sandboxes st)) st);;
    emit (EvLock StateLock);;
    defer_ None (λ _, proc (emit (EvUnlock StateLock))) (
      err ← call (addSandboxPlatform sb);
      return_ err)).

(** GetSandbox returns a sandbox by its ID *)
Definition GetSandbox (id : string) : Func (option Sandbox) :=
  fn (r ← gets (λ c, oci.Get id (sandboxes (state c))); return_ r).

(** GetSandboxContainer returns a sandbox's infra container *)
Definition GetSandboxContainer (id : string) : Func (option Container) :=
  fn (
    sb ← gets (λ c, oci.Get id (sandboxes (state c)));
    match sb with
    | None => return_ None
    | Some sb => return_ (sb_infra_container sb)
    end).

(** HasSandbox checks if a sandbox exists in the state *)
Definition HasSandbox (id : string) : Func bool :=
  fn (r ← gets (λ c, if oci.Get id (sandboxes (state c)) is Some _ then true else false); return_ r).

(** RemoveSandbox removes a sandbox from the state store *)
Definition RemoveSandbox (id : string) : Func (option error) :=
  fn (
    sb ← gets (λ c, oci.Get id (sandboxes (state c)));
    match sb with
    | None => return_ None
    | Some sb =>
        emit (EvLock StateLock);;
        defer_ None (λ _, proc (emit (EvUnlock StateLock))) (
          err ← call (removeSandboxPlatform sb);
          check err Some;;
          emit (EvStoreDelete Sandboxes id);;
          modify_state (λ st, set_sandboxes (oci.Delete id (sandboxes st)) st);;
          return_ None)
    end).

(** ListSandboxes lists all sandboxes in the state store *)
Definition ListSandboxes : Func (list Sandbox) :=
  fn (r ← gets (λ c, oci.List (sandboxes (state c))); return_ r).

(** *** State files *)

(** ContainerStateFromDisk retrieves information on the state of a running
    container from the disk.  The container behind [ctr], as the call
    leaves it, is returned with the error. *)
Definition ContainerStateFromDisk (ctr : Container) : Func (option error * Container) :=
  fn (
    '(err, st) ← on_host (EvCall "ctr.FromDisk" [oci.ID ctr]) (ctr_FromDisk ops ctr);
    let ctr := oci.SetState st ctr in
    check err (λ err, (Some err, ctr));;
    '(err, st) ← on_host (EvCall "runtime.UpdateContainerStatus" [oci.ID ctr])
                   (runtime_UpdateContainerStatus ops ctr);
    let ctr := oci.SetState st ctr in
    check err (λ err, (Some err, ctr));;
    return_ (None, ctr)).

(** ctr.StatePath() *)
Definition StatePath (ctr : Container) : string :=
  filepath_Join ops [ctr_dir (ctr_info ctr); "state.json"].

(** ContainerStateToDisk writes the container's state information to a JSON
    file on disk *)
Definition ContainerStateToDisk (ctr : option Container)
  : Func (option error * option Container) :=
  fn (
    match ctr with
    | None => return_ (None, None)
    | Some ctr =>
        '(err, st) ← on_host (EvCall "runtime.UpdateContainerStatus" [oci.ID ctr])
                       (runtime_UpdateContainerStatus ops ctr);
        let ctr := oci.SetState st ctr in
        match err with
        | Some _ => emit (EvWarn "error updating the container status")
        | None => mret tt
        end;;
        err ← on_host (EvCall "ioutils.NewAtomicFileWriter" [StatePath ctr])
                (ioutils_NewAtomicFileWriter ops (StatePath ctr));
        check err (λ err, (Some err, Some ctr));;
        defer_ (None, None)
          (λ _, proc (on_host (EvCall "jsonSource.Close" [StatePath ctr])
                      (file_Close ops (StatePath ctr)))) (
          err ← on_host (EvCall "enc.Encode" [StatePath ctr])
                  (json_Encode ops (StatePath ctr) (oci.State ctr));
          return_ (err, Some ctr))
    end).

(** *** Rehydration *)

(** func configNsPath(spec *rspec.Spec, nsType rspec.LinuxNamespaceType) *)
Definition configNsPath (spec : Spec) (nsType : string)
  : Func (string * option error) :=
  fn (
    linux ← deref (spec_Linux spec);
    return_ (configNsPath_range (Namespaces linux) nsType)).

(** if c.config.ManageNSLifecycle { ... }: one of the four joins *)
Definition load_join (m : Spec) (nsType : string)
    (NsJoin : string → Fn (Sandbox * Host) event (option error)) (sb : Sandbox)
  : Stmt (option error) Sandbox :=
  '(nsPath, err) ← call (configNsPath m nsType);
  match err with
  | None =>
      '(nsErr, sb) ← with_obj sb (NsJoin nsPath);
      check nsErr Some;;
      mret sb
  | Some _ => mret sb
  end.

(** for _, cv := range containerVolumes { scontainer.AddVolume(cv) } *)
Definition add_volumes (containerVolumes : list ContainerVolume) (ctr : Container)
  : Container :=
  foldl (λ c cv, oci.AddVolume cv c) ctr containerVolumes.

(** The sandbox [sb] points to is the one the store holds under its id once
    AddSandbox has run: a write through [sb] shows in the store. *)
Definition write_through {R} (sb : Sandbox) : Stmt R unit :=
  modify_state (λ st, set_sandboxes (<[sandbox.ID sb := sb]> (sandboxes st)) st).

(** LoadSandbox loads a sandbox from the disk into the sandbox store *)
Definition LoadSandbox (id : string) : Func (option error) :=
  fn (
    r ← on_host (EvCall "store.FromContainerDirectory" [id; "config.json"])
          (store_FromContainerDirectory ops id "config.json");
    config_json ← try_ r Some;
    m ← try_ (json_Spec ops config_json)
           (λ err, Some (Wrap err "error unmarshalling sandbox spec"));
    labels ← try_ (json_StringMap ops (ann m annotations.Labels))
                (λ err, Some (Wrap err "error unmarshalling Labels annotation"));
    let name := ann m annotations.Name in
    '(name, err) ← call (ReservePodName id name);
    check err Some;;
    defer_ None
      (λ retErr, proc (if retErr is Some _ then call (ReleasePodName name)
                     else mret tt)) (
    metadata ← try_ (json_PodSandboxMetadata ops (ann m annotations.Metadata))
                  (λ err, Some (Wrap err "error unmarshalling Metadata annotation"));
    process ← deref (spec_Process m);
    let processLabel := SelinuxLabel process in
    linux ← deref (spec_Linux m);
    let mountLabel := MountLabel linux in
    let spp := ann m annotations.SeccompProfilePath in
    kubeAnnotations ← try_ (json_StringMap ops (ann m annotations.Annotations))
      (λ err, Some (Wrap err "error unmarshalling Annotations annotation"));
    portMappings ← try_ (json_PortMappings ops (ann m annotations.PortMappings))
      (λ err, Some (Wrap err "error unmarshalling PortMappings annotation"));
    let privileged := isTrue (ann m annotations.PrivilegedRuntime) in
    let hostNetwork := isTrue (ann m annotations.HostNetwork) in
    nsOpts ← try_ (json_NamespaceOption ops (ann m annotations.NamespaceOptions))
      (λ err, Some (Wrap err "error unmarshalling NamespaceOptions annotation"));
    check (sandbox_New_check ops id name) Some;;
    let sb := sandbox.New
      {| sb_id := id; sb_namespace := ann m annotations.Namespace;
         sb_name := name; sb_kube_name := ann m annotations.KubeName;
         sb_log_dir := filepath_Dir ops (ann m annotations.LogPath);
         sb_labels := labels; sb_annotations := kubeAnnotations;
         sb_process_label := processLabel; sb_mount_label := mountLabel;
         sb_metadata := metadata; sb_shm_path := ann m annotations.ShmPath;
         sb_cgroup_parent := ann m annotations.CgroupParent;
         sb_privileged := privileged;
         sb_runtime_handler := ann m annotations.RuntimeHandler;
         sb_resolv_path := ann m annotations.ResolvPath;
         sb_hostname := ann m annotations.HostName;
         sb_port_mappings := portMappings; sb_host_network := hostNetwork |} in
    let sb := sandbox.AddHostnamePath (ann m annotations.HostnamePath) sb in
    let sb := sandbox.SetSeccompProfilePath spp sb in
    let sb := sandbox.SetNamespaceOptions nsOpts sb in
    (* We add an NS only if we can load a permanent one.
       Otherwise, the sandbox will live in the host namespace. *)
    manage ← gets (λ c : ContainerServer, ManageNSLifecycle (config c));
    sb ← (if manage : bool then
            sb ← load_join m NetworkNamespace (sandbox.NetNsJoin ops) sb;
            sb ← load_join m IPCNamespace (sandbox.IpcNsJoin ops) sb;
            sb ← load_join m UTSNamespace (sandbox.UtsNsJoin ops) sb;
            load_join m UserNamespace (sandbox.UserNsJoin ops) sb
          else mret sb);
    err ← call (AddSandbox sb);
    check err Some;;
    defer_ None
      (λ retErr, proc (if retErr is Some _ then
                       err ← call (RemoveSandbox (sandbox.ID sb));
                       if err is Some _
                       then emit (EvWarn "could not remove sandbox ID")
                       else mret tt
                     else mret tt)) (
    r ← on_host (EvCall "store.ContainerRunDirectory" [id])
          (store_ContainerRunDirectory ops id);
    sandboxPath ← try_ r Some;
    r ← on_host (EvCall "store.ContainerDirectory" [id])
          (store_ContainerDirectory ops id);
    sandboxDir ← try_ r Some;
    '(cname, err) ← call (ReserveContainerName (ann m annotations.ContainerID)
                            (ann m annotations.ContainerName));
    check err Some;;
    defer_ None
      (λ retErr, proc (if retErr is Some _ then call (ReleaseContainerName cname)
                     else mret tt)) (
    created ← try_ (time_Parse ops (ann m annotations.Created)) Some;
    check (oci_NewContainer_check ops (ann m annotations.ContainerID) cname) Some;;
    let scontainer := oci.NewContainer
      {| ctr_id := ann m annotations.ContainerID; ctr_name := cname;
         ctr_run_dir := sandboxPath; ctr_log_path := ann m annotations.LogPath;
         ctr_labels := labels; ctr_crio_annotations := Annotations m;
         ctr_annotations := kubeAnnotations;
         ctr_image := ann m annotations.Image;
         ctr_image_name := ""; ctr_image_ref := ""; ctr_metadata := None;
         ctr_sandbox := id; ctr_tty := false; ctr_stdin := false;
         ctr_stdin_once := false;
         ctr_runtime_handler := sandbox.RuntimeHandler sb;
         ctr_dir := sandboxDir; ctr_created := created;
         ctr_stop_signal := ann m "org.opencontainers.image.stopSignal" |} in
    let scontainer := oci.SetSpec m scontainer in
    let scontainer := oci.SetMountPoint (ann m annotations.MountPoint) scontainer in
    scontainer ←
      (if negb (String.eqb (ann m annotations.Volumes) "") then
         containerVolumes ← try_ (json_Volumes ops (ann m annotations.Volumes))
           (λ err, Some (ErrorfV "failed to unmarshal container volumes: %v" [] err));
         mret (add_volumes containerVolumes scontainer)
       else mret scontainer);
    '(err, scontainer) ← call (ContainerStateFromDisk scontainer);
    check err (λ err, Some (ErrorfV "error reading sandbox state from disk %q: %v"
                              [FStr (oci.ID scontainer)] err));;
    (* We write back the state because it is possible that crio did not have
       a chance to read the exit file and persist exit code into the state
       on reboot. *)
    '(err, written) ← call (ContainerStateToDisk (Some scontainer));
    let scontainer := default scontainer written in
    check err (λ err, Some (ErrorfV "failed to write container state to disk %q: %v"
                              [FStr (oci.ID scontainer)] err));;
    let sb := sandbox.SetCreated sb in
    write_through sb;;
    err ← on_host (EvCall "label.ReserveLabel" [processLabel])
            (label_ReserveLabel ops processLabel);
    check err Some;;
    let '(err, sb) := sandbox.SetInfraContainer scontainer sb in
    write_through sb;;
    check err Some;;
    let sb := sandbox.RestoreStopped sb in
    write_through sb;;
    err ← ctrIDIndex_Add (oci.ID scontainer);
    check err Some;;
    err ← podIDIndex_Add id;
    check err Some;;
    return_ None)))).

(** LoadContainer loads a container from the disk into the container store *)
Definition LoadContainer (id : string) : Func (option error) :=
  fn (
    r ← on_host (EvCall "store.FromContainerDirectory" [id; "config.json"])
          (store_FromContainerDirectory ops id "config.json");
    config_json ← try_ r Some;
    m ← try_ (json_Spec ops config_json) Some;
    (* Do not interact with containers of others *)
    return_if
      (match Annotations m !! annotations.ContainerManager with
       | Some manager => negb (String.eqb manager ContainerManagerCRIO)
       | None => false
       end)
      (Some ErrIsNonCrioContainer);;
    labels ← try_ (json_StringMap ops (ann m annotations.Labels)) Some;
    let name := ann m annotations.Name in
    '(name, err) ← call (ReserveContainerName id name);
    check err Some;;
    defer_ None
      (λ retErr, proc (if retErr is Some _ then call (ReleaseContainerName name)
                     else mret tt)) (
    metadata ← try_ (json_ContainerMetadata ops (ann m annotations.Metadata)) Some;
    sb ← call (GetSandbox (ann m annotations.SandboxID));
    sb ← match sb with
         | None => return_ (Some (Errorf "could not get sandbox with id %s, skipping"
                                    [FStr (ann m annotations.SandboxID)]))
         | Some sb => mret sb
         end;
    let tty := isTrue (ann m annotations.TTY) in
    let stdin := isTrue (ann m annotations.Stdin) in
    let stdinOnce := isTrue (ann m annotations.StdinOnce) in
    r ← on_host (EvCall "store.ContainerRunDirectory" [id])
          (store_ContainerRunDirectory ops id);
    containerPath ← try_ r Some;
    r ← on_host (EvCall "store.ContainerDirectory" [id])
          (store_ContainerDirectory ops id);
    containerDir ← try_ r Some;
    let img := ann m annotations.Image in
    let imgName := ann m annotations.ImageName in
    let imgRef := ann m annotations.ImageRef in
    kubeAnnotations ← try_ (json_StringMap ops (ann m annotations.Annotations)) Some;
    created ← try_ (time_Parse ops (ann m annotations.Created)) Some;
    check (oci_NewContainer_check ops id name) Some;;
    let ctr := oci.NewContainer
      {| ctr_id := id; ctr_name := name; ctr_run_dir := containerPath;
         ctr_log_path := ann m annotations.LogPath; ctr_labels := labels;
         ctr_crio_annotations := Annotations m;
         ctr_annotations := kubeAnnotations; ctr_image := img;
         ctr_image_name := imgName; ctr_image_ref := imgRef;
         ctr_metadata := Some metadata; ctr_sandbox := sandbox.ID sb;
         ctr_tty := tty; ctr_stdin := stdin; ctr_stdin_once := stdinOnce;
         ctr_runtime_handler := sandbox.RuntimeHandler sb;
         ctr_dir := containerDir; ctr_created := created;
         ctr_stop_signal := ann m "org.opencontainers.image.stopSignal" |} in
    let ctr := oci.SetSpec m ctr in
    let ctr := oci.SetMountPoint (ann m annotations.MountPoint) ctr in
    let spp := ann m annotations.SeccompProfilePath in
    let ctr := oci.SetSeccompProfilePath spp ctr in
    '(err, ctr) ← call (ContainerStateFromDisk ctr);
    check err (λ err, Some (ErrorfV "error reading container state from disk %q: %v"
                              [FStr (oci.ID ctr)] err));;
    (* We write back the state because it is possible that crio did not have
       a chance to read the exit file and persist exit code into the state
       on reboot. *)
    '(err, written) ← call (ContainerStateToDisk (Some ctr));
    let ctr := default ctr written in
    check err (λ err, Some (ErrorfV "failed to write container state to disk %q: %v"
                              [FStr (oci.ID ctr)] err));;
    let ctr := oci.SetCreated ctr in
    call (AddContainer ctr);;
    err ← ctrIDIndex_Add id;
    return_ err)).

(** The reserve and release methods of either registrar. *)
Definition ReserveName (i : index) : string → string → Func (string * option error) :=
  match i with
  | CtrNameIndex => ReserveContainerName
  | PodNameIndex => ReservePodName
  end.
Definition ReleaseName (i : index) : string → Func unit :=
  match i with
  | CtrNameIndex => ReleaseContainerName
  | PodNameIndex => ReleasePodName
  end.

(** Every stored container is stored under its own id (what
    [c.state.containers.Add(ctr.ID(), ctr)] maintains). *)
Definition store_wf (c : ContainerServer) : Prop :=
  ∀ k x, containers (state c) !! k = Some x → oci.ID x = k.

(** How many of the filters a container satisfies. *)
Definition satisfied (x : Container) (filters : list (Container → bool)) : nat :=
length (List.filter (λ f, f x) filters).

(** *** What it means to leave no name reserved *)

(** No successful reservation among the events. *)
Definition silent (t : list event) : Prop :=
  ∀ i n k, ¬ In (EvReserve i n k true) t.

(** A computation that reserves no name. *)
Definition quiet {S X} (m : S → X * S * list event) : Prop :=
  ∀ s x s' t, m s = (x, s', t) → silent t.

(** A method of the server that reserves no name and leaves both
    registrars as they are. *)
Definition keeps {X} (f : ContainerServer → X * ContainerServer * list event) : Prop :=
  ∀ c x c' t, f c = (x, c', t) →
    silent t ∧ ∀ i, name_index i c' = name_index i c.

(** Every name whose reservation succeeded in the trace is free in [c]. *)
Definition all_released (t : list event) (c : ContainerServer) : Prop :=
  ∀ i n k, In (EvReserve i n k true) t → name_index i c !! n = None.

(** A statement that, when it returns an error, has released every name
    it reserved. *)
Definition releases {A} (m : Stmt (option error) A) : Prop :=
  ∀ c c' t e, m c = (Ret (Some e), c', t) → all_released t c'.
End code.
End lib.

(** ** The checkpoint / restore client (cmd/crio-cr/main.go) *)

Module criocr.

(** containers/storage/pkg/archive: Compression *)
Inductive Compression : Type := Uncompressed | Bzip2 | Gzip | Xz | Zstd.
Definition int64 (c : Compression) : Z :=
  match c with Uncompressed => 0 | Bzip2 => 1 | Gzip => 2 | Xz => 3 | Zstd => 4 end.

(** unicode.ToLower on the ASCII letters *)
Definition lower (a : ascii) : ascii :=
  let n := nat_of_ascii a in
  if (65 <=? n)%nat && (n <=? 90)%nat then ascii_of_nat (n + 32) else a.

(** strings.ToLower, on the bytes of a string, as far as its result can be
    a word of ASCII letters, which is what the switch on the compression
    compares it with.  The ASCII letters are lowered byte by byte.  Beside
    them only two code points are lowered to an ASCII letter: U+0130,
    encoded as the bytes 196 176, to "i", and U+212A, encoded as the bytes
    226 132 170, to "k"; the first byte of either encoding is never a
    continuation byte, so each is found where a code point starts.  Every
    other byte above 127 is kept as it is, where strings.ToLower writes
    some code point above 127 (the lowered one, or U+FFFD for a byte that
    is not UTF-8): the two results may differ there, but neither is a word
    of ASCII letters. *)
Fixpoint ToLower (s : string) : string :=
  match s with
  | EmptyString => EmptyString
  | String a rest =>
      match rest with
      | String b rest1 =>
          if (nat_of_ascii a =? 196)%nat && (nat_of_ascii b =? 176)%nat
          then String "i" (ToLower rest1)
          else
            match rest1 with
            | String c rest2 =>
                if (nat_of_ascii a =? 226)%nat && (nat_of_ascii b =? 132)%nat
                   && (nat_of_ascii c =? 170)%nat
                then String "k" (ToLower rest2)
                else String (lower a) (ToLower rest)
            | EmptyString => String (lower a) (ToLower rest)
            end
      | EmptyString => String (lower a) (ToLower rest)
      end
  end.

(** The command line as cli.Context answers for it. *)
Record Context : Type := {
  Args : list string;
  flag_connect : string;
  flag_timeout : Z;
  flag_export : string;
  flag_import : string;
  flag_keep : bool;
  flag_leave_running : bool;
  flag_tcp_established : bool;
  flag_compress : string;
  flag_pod : option string;       (* set or not: c.IsSet("pod") *)
}.
Definition NArg (c : Context) : nat := length (Args c).
Definition Get (i : nat) (c : Context) : string := nth i (Args c) "".

Record CheckpointRestoreOptions : Type := {
  Archive : string; Keep : bool; TcpEstablished : bool; Compression_ : Z;
}.
Record CheckpointContainerRequest : Type := {
  cp_Id : string;
  cp_CommonOptions : CheckpointRestoreOptions;
  cp_LeaveRunning : bool;
}.
Record RestoreContainerRequest : Type := {
  rs_Id : string;
  rs_PodSandboxId : string;
  rs_CommonOptions : CheckpointRestoreOptions;
}.
Record RestoreContainerResponse : Type := {
  resp_Id : string; resp_Pod : bool; resp_RestoredContainers : list string;
}.

(** What the client calls: the dialer, the two requests to the daemon, the
    help printer and the JSON encoder.  [Daemon] is the state of the daemon
    and of the connection. *)
Record Remote (Daemon : Type) : Type := {
  grpc_DialContext : string → Z → Daemon → option error * Daemon;
  conn_Close : Daemon → unit * Daemon;
  client_CheckpointContainer :
    CheckpointContainerRequest → Daemon → option error * Daemon;
  client_RestoreContainer :
    RestoreContainerRequest → Daemon
    → (option RestoreContainerResponse * option error) * Daemon;
  cli_ShowSubcommandHelp : Daemon → option error * Daemon;
  json_MarshalIndent : list (option RestoreContainerResponse) → error + string;
}.
Arguments grpc_DialContext {_} _.
Arguments conn_Close {_} _.
Arguments client_CheckpointContainer {_} _.
Arguments client_RestoreContainer {_} _.
Arguments cli_ShowSubcommandHelp {_} _.
Arguments json_MarshalIndent {_} _.

Section code.
Context {Daemon : Type} (remote : Remote Daemon).

Abbreviation Stmt R A := (M Daemon event R A).
Abbreviation Func R := (Fn Daemon event R).

Definition on_daemon {R A} (e : event) (f : Daemon → A * Daemon) : Stmt R A :=
  host_call (λ d, d) (λ d _, d) e f.

(** A request to the daemon; the trace records whether it succeeded. *)
Definition request {R A} (method id : string) (failed : A → bool)
    (f : Daemon → A * Daemon) : Stmt R A :=
  λ d, match f d with
       | (a, d') => (Next a, d', [EvRPC method id (negb (failed a))])
       end.

(** func getClientConnection(address string, timeout time.Duration) *)
Definition getClientConnection (address : string) (timeout : Z)
  : Func (option error) :=
  fn (
    err ← on_daemon (EvCall "grpc.DialContext" [address])
            (grpc_DialContext remote address timeout);
    check err (λ err, Some (ErrorfV "failed to connect: %v" [] err));;
    return_ None).

(** for i := 0; i < c.NArg(); i++ { ... } of the checkpoint action, from
    index [i] on, [todo] iterations being left.  (The logrus.Debugf lines
    write to the log, not to the output stream, and are not recorded.) *)
Fixpoint checkpoint_loop (c : Context) (request_ : CheckpointContainerRequest)
    (i todo : nat) : Stmt (option error) unit :=
  match todo with
  | O => mret tt
  | S todo =>
      let request_ :=
        {| cp_Id := Get i c; cp_CommonOptions := cp_CommonOptions request_;
           cp_LeaveRunning := cp_LeaveRunning request_ |} in
      err ← request "CheckpointContainer" (cp_Id request_)
              (λ err : option error, if err is Some _ then true else false)
              (client_CheckpointContainer remote request_);
      check err Some;;
      emit (EvStdout (cp_Id request_));;
      checkpoint_loop c request_ (S i) todo
  end.

(** checkpointCommand.Action *)
Definition checkpointAction (c : Context) : Func (option error) :=
  fn (
    (if Nat.eqb (NArg c) 0 then
       err ← on_daemon (EvCall "cli.ShowSubcommandHelp" [])
               (cli_ShowSubcommandHelp remote);
       return_ err
     else mret tt);;
    let address := flag_connect c in
    let timeout := flag_timeout c in
    err ← call (getClientConnection address timeout);
    check err (λ err, Some (ErrorfV "failed to connect: %v" [] err));;
    defer_ None (λ _, proc (on_daemon (EvCall "conn.Close" []) (conn_Close remote))) (
    compression ←
      (let s := ToLower (flag_compress c) in
       if String.eqb s "none" then mret Uncompressed
       else if String.eqb s "gzip" then mret Gzip
       else if String.eqb s "zstd" then mret Zstd
       else return_ (Some (Errorf "Selected compression algorithm (%q) not supported\n"
                             [FStr (flag_compress c)])));
    let request_ :=
      {| cp_Id := "";
         cp_CommonOptions :=
           {| Archive := flag_export c; Keep := flag_keep c;
              TcpEstablished := flag_tcp_established c;
              Compression_ := int64 compression |};
         cp_LeaveRunning := flag_leave_running c |} in
    checkpoint_loop c request_ 0 (NArg c);;
    return_ None)).

(** for i := 0; i < c.NArg(); i++ { ids = append(ids, c.Args().Get(i)) } *)
Fixpoint collect_ids (c : Context) (i todo : nat) (ids : list string) : list string :=
  match todo with
  | O => ids
  | S todo => collect_ids c (S i) todo (ids ++ [Get i c])
  end.

(** for _, i := range ids { ... } of the restore action *)
Fixpoint restore_loop (request_ : RestoreContainerRequest) (ids : list string)
    (rs : list (option RestoreContainerResponse))
  : Stmt (option error) (list (option RestoreContainerResponse)) :=
  match ids with
  | [] => mret rs
  | i :: rest =>
      let request_ :=
        {| rs_Id := i; rs_PodSandboxId := rs_PodSandboxId request_;
           rs_CommonOptions := rs_CommonOptions request_ |} in
      '(r, err) ← request "RestoreContainer" (rs_Id request_)
                    (λ a : option RestoreContainerResponse * option error,
                       if a.2 is Some _ then true else false)
                    (client_RestoreContainer remote request_);
      check err Some;;
      restore_loop request_ rest (rs ++ [r])
  end.

(** restoreCommand.Action *)
Definition restoreAction (c : Context) : Func (option error) :=
  fn (
    (if Nat.eqb (NArg c) 0 && String.eqb (flag_import c) "" then
       err ← on_daemon (EvCall "cli.ShowSubcommandHelp" [])
               (cli_ShowSubcommandHelp remote);
       return_ err
     else mret tt);;
    let address := flag_connect c in
    let timeout := flag_timeout c in
    err ← call (getClientConnection address timeout);
    check err (λ err, Some (ErrorfV "failed to connect: %v" [] err));;
    defer_ None (λ _, proc (on_daemon (EvCall "conn.Close" []) (conn_Close remote))) (
    let request_ :=
      {| rs_Id := "";
         rs_PodSandboxId := (if flag_pod c is Some p then p else "");
         rs_CommonOptions :=
           {| Archive := flag_import c; Keep := flag_keep c;
              TcpEstablished := flag_tcp_established c; Compression_ := 0 |} |} in
    let ids :=
      if Nat.ltb 0 (NArg c) then collect_ids c 0 (NArg c) [] else [""] in
    rs ← restore_loop request_ ids [];
    result ← try_ (json_MarshalIndent remote rs) Some;
    emit (EvStdout result);;
    return_ None)).

(** main: [if err := app.Run(os.Args); err != nil { logrus.Fatal(err) }];
    logrus.Fatal leaves with status 1, a return from main with status 0. *)
Definition exit_status (err : option error) : Z :=
  if err is Some _ then 1 else 0.
End code.

(** What the checkpoint loop leaves in the trace for requests that
    succeeded: each request, then its id on the output stream. *)
Definition checkpointed (ids : list string) : list event :=
  flat_map (λ id, [EvRPC "CheckpointContainer" id true; EvStdout id]) ids.

(** What the restore loop leaves in the trace for requests that succeeded. *)
Definition restored (ids : list string) : list event :=
  map (λ id, EvRPC "RestoreContainer" id true) ids.

(** The ids the restore action asks for. *)
Definition restore_ids (c : Context) : list string :=
  if Nat.ltb 0 (NArg c) then Args c else [""].

(** The pod and the options the restore action puts in each request. *)
Definition restore_pod (c : Context) : string :=
  if flag_pod c is Some p then p else "".
Definition restore_options (c : Context) : CheckpointRestoreOptions :=
  {| Archive := flag_import c; Keep := flag_keep c;
     TcpEstablished := flag_tcp_established c; Compression_ := 0 |}.

(** What the daemon answers to the restore requests for [ids], made in this
    order up to and including the first that is answered with an error, and
    the daemon after the last of them. *)
Fixpoint restore_answers {Daemon} (remote : Remote Daemon) (pod : string)
    (options : CheckpointRestoreOptions) (ids : list string) (d : Daemon)
  : list (option RestoreContainerResponse * option error) * Daemon :=
  match ids with
  | [] => ([], d)
  | i :: rest =>
      let '(a, d1) :=
        client_RestoreContainer remote
          {| rs_Id := i; rs_PodSandboxId := pod; rs_CommonOptions := options |} d in
      match a.2 with
      | Some _ => ([a], d1)
      | None =>
          let '(more, d2) := restore_answers remote pod options rest d1 in
          (a :: more, d2)
      end
  end.

(** The first error among the answers. *)
Definition first_error
    (answers : list (option RestoreContainerResponse * option error))
  : option error :=
  head (omap snd answers).

(** The requests behind the answers, as the trace has them. *)
Definition restore_asked (ids : list string)
    (answers : list (option RestoreContainerResponse * option error))
  : list event :=
  zip_with (λ id a, EvRPC "RestoreContainer" id
                      (if a.2 is Some _ then false else true)) ids answers.
End criocr.

(** ** A small concrete host, daemon and command line

    Used to run the code on concrete inputs. *)

Module demo.

(** The host: the config.json of each container directory, the paths that
    are namespace files (with their kind), and what is set up to fail. *)
Record Host : Type := {
  configs : gmap string string;
  ns_files : gmap string NSType;
  pinns_fails : bool;
  busy_mounts : list string;       (* paths whose unmount fails *)
}.

Definition TruncIndex : Type := list string.

Definition join_path (parts : list string) : string :=
  foldr (λ p acc, if String.eqb acc "" then p else p +:+ "/" +:+ acc) "" parts.

Definition member (x : string) (l : list string) : bool :=
  existsb (String.eqb x) l.

(** The documents the decoder knows. *)
Definition base_annotations (name sandbox_id : string) : gmap string string :=
  {[ annotations.Name := name;
     annotations.Labels := "{}";
     annotations.Metadata := "{}";
     annotations.Annotations := "{}";
     annotations.PortMappings := "[]";
     annotations.NamespaceOptions := "{}";
     annotations.SandboxID := sandbox_id;
     annotations.ContainerID := "infra1";
     annotations.ContainerName := "k8s_POD_pod-a";
     annotations.Created := "2020-01-01T00:00:00.000000000Z" ]}.

Definition spec_of (a : gmap string string) : Spec :=
  {| Annotations := a;
     spec_Process := Some {| SelinuxLabel := "" |};
     spec_Linux := Some {| MountLabel := ""; Namespaces := [] |} |}.

Definition decode_Spec (doc : string) : error + Spec :=
  if String.eqb doc "ctr-unmarked" then
    inr (spec_of (base_annotations "c1" "sb1"))
  else if String.eqb doc "ctr-crio" then
    inr (spec_of (<[annotations.ContainerManager := "cri-o"]>
                    (base_annotations "c1" "sb1")))
  else if String.eqb doc "ctr-podman" then
    inr (spec_of (<[annotations.ContainerManager := "libpod"]>
                    (base_annotations "c1" "sb1")))
  else if String.eqb doc "ctr-orphan" then
    inr (spec_of (base_annotations "c2" "nowhere"))
  else if String.eqb doc "pod-podman" then
    inr (spec_of (<[annotations.ContainerManager := "libpod"]>
                    (base_annotations "pod-a" "sb1")))
  else if String.eqb doc "pod-undated" then
    inr (spec_of (delete annotations.Created (base_annotations "pod-b" "sb2")))
  else if String.eqb doc "pod-bare" then
    inr {| Annotations := base_annotations "pod-c" "sb3";
           spec_Process := None; spec_Linux := None |}
  else inl (ErrExternal "invalid character").

Definition decode_StringMap (doc : string) : error + gmap string string :=
  if String.eqb doc "{}" then inr ∅ else inl (ErrExternal "unexpected end of JSON input").

Definition level_of (sb : Sandbox) : string := sandbox.ProcessLabel sb.

Definition ops : Collab Host TruncIndex :=
  {| nspkg_IsNSorErr := λ p h,
       (if ns_files h !! p is Some _ then None
        else Some (ErrExternal "unknown FS magic"), h);
     nspkg_GetNS := λ p h, (inr {| Fd := 3; ns_file := p |}, h);
     nsfs_kind := λ p h, ns_files h !! p;
     nspkg_Close := λ _ h, (None, h);
     unix_Unmount := λ p _ h,
       (if member p (busy_mounts h) then Some (ErrExternal "EBUSY") else None, h);
     utils_Unmount := λ p h,
       (if member p (busy_mounts h) then Some (ErrExternal "EBUSY") else None, h);
     os_RemoveAll := λ _ h, (None, h);
     exec_Output := λ _ _ h,
       (("", if pinns_fails h then Some (ErrExternal "exit status 1") else None), h);
     uuid_New := λ h, ("f00d", h);
     filepath_Join := join_path;
     filepath_Dir := λ p, p;
     store_FromContainerDirectory := λ id _ h,
       (match configs h !! id with
        | Some doc => inr doc
        | None => inl (ErrExternal "no such file or directory")
        end, h);
     store_ContainerRunDirectory := λ id h, (inr ("/run/" +:+ id), h);
     store_ContainerDirectory := λ id h, (inr ("/var/" +:+ id), h);
     json_Spec := decode_Spec;
     json_StringMap := decode_StringMap;
     json_PodSandboxMetadata := λ _,
       inr {| pmd_name := ""; pmd_uid := ""; pmd_namespace := ""; pmd_attempt := 0 |};
     json_ContainerMetadata := λ _, inr {| md_name := ""; md_attempt := 0 |};
     json_PortMappings := λ _, inr [];
     json_NamespaceOption := λ _,
       inr {| opt_host_network := false; opt_host_pid := false;
              opt_host_ipc := false; opt_host_user := false |};
     json_Volumes := λ _, inr [];
     time_Parse := λ s,
       if String.eqb s "" then inl (ErrExternal "cannot parse time") else inr 0%Z;
     oci_NewContainer_check := λ _ _, None;
     sandbox_New_check := λ _ _, None;
     ctr_FromDisk := λ c h, ((None, oci.State c), h);
     runtime_UpdateContainerStatus := λ c h, ((None, oci.State c), h);
     ioutils_NewAtomicFileWriter := λ _ h, (None, h);
     json_Encode := λ _ _ h, (None, h);
     file_Close := λ _ h, (tt, h);
     label_ReserveLabel := λ _ h, (None, h);
     truncindex_Add := λ id t,
       if member id t then (Some (ErrExternal "id already exists"), t)
       else (None, id :: t);
     platform_addSandbox := λ sb '(pl, h),
       (None, (<[level_of sb := (default 0 (pl !! level_of sb) + 1)%Z]> pl, h));
     label_ReleaseLabel := λ _ h, (tt, h);
     selinux_level := λ processLabel,
       if String.eqb processLabel "invalid"
       then inl (ErrExternal "invalid label")
       else inr processLabel |}.

Definition host0 : Host :=
  {| configs := {[ "c-unmarked" := "ctr-unmarked"; "c-crio" := "ctr-crio";
                   "c-podman" := "ctr-podman"; "c-orphan" := "ctr-orphan";
                   "sb1" := "pod-podman"; "sb2" := "pod-undated";
                   "sb3" := "pod-bare" ]};
     ns_files := {[ "/proc/self/ns/net" := NETNS; "/proc/self/ns/ipc" := IPCNS;
                    "/proc/self/ns/uts" := UTSNS; "/proc/self/ns/user" := USERNS ]};
     pinns_fails := false;
     busy_mounts := [] |}.

Definition cfg0 : Config :=
  {| NamespacesDir := "/var/run"; PinnsPath := "/usr/bin/pinns";
     ManageNSLifecycle := true |}.

Definition state0 : lib.containerServerState :=
  {| lib.containers := ∅; lib.infraContainers := ∅; lib.sandboxes := ∅;
     lib.processLevels := ∅ |}.

(** A server that has loaded nothing yet. *)
Definition server0 : lib.ContainerServer (Host := Host) (TruncIndex := TruncIndex) :=
  {| lib.host := host0; lib.ctrNameIndex := registrar.NewRegistrar;
     lib.ctrIDIndex := []; lib.podNameIndex := registrar.NewRegistrar;
     lib.podIDIndex := []; lib.state := state0; lib.config := cfg0 |}.

Definition sandbox1 : Sandbox :=
  sandbox.New
    {| sb_id := "sb1"; sb_namespace := "default"; sb_name := "pod-a";
       sb_kube_name := "a"; sb_log_dir := "/var/log"; sb_labels := ∅;
       sb_annotations := ∅; sb_process_label := ""; sb_mount_label := "";
       sb_metadata := {| pmd_name := "a"; pmd_uid := "u"; pmd_namespace := "default";
                         pmd_attempt := 0 |};
       sb_shm_path := ""; sb_cgroup_parent := ""; sb_privileged := false;
       sb_runtime_handler := ""; sb_resolv_path := ""; sb_hostname := "";
       sb_port_mappings := []; sb_host_network := false |}.

Definition container_in (id sbid : string) : Container :=
  oci.NewContainer
    {| ctr_id := id; ctr_name := "name-" +:+ id; ctr_run_dir := "";
       ctr_log_path := ""; ctr_labels := ∅; ctr_crio_annotations := ∅;
       ctr_annotations := ∅; ctr_image := "redis"; ctr_image_name := "";
       ctr_image_ref := ""; ctr_metadata := None; ctr_sandbox := sbid;
       ctr_tty := false; ctr_stdin := false; ctr_stdin_once := false;
       ctr_runtime_handler := ""; ctr_dir := ""; ctr_created := 0;
       ctr_stop_signal := "" |}.

(** A server holding sandbox "sb1". *)
Definition server1 : lib.ContainerServer (Host := Host) (TruncIndex := TruncIndex) :=
  lib.set_state (lib.set_sandboxes {[ "sb1" := sandbox1 ]} state0) server0.



(** A server holding sandbox "sb1" and, in it, container "c5". *)
Definition server2 : lib.ContainerServer (Host := Host) (TruncIndex := TruncIndex) :=
  lib.set_state
    (lib.set_containers {[ "c5" := container_in "c5" "sb1" ]}
       (lib.set_sandboxes {[ "sb1" := sandbox1 ]} state0)) server0.

(** A host on which the helper fails and one would-be path stays mounted. *)
Definition host_pinns_fails : Host :=
  {| configs := ∅; ns_files := ∅; pinns_fails := true;
     busy_mounts := ["/var/run/ipcns/f00d"] |}.


(** The daemon as the client sees it: the ids it refuses. *)
Definition remote (refused : list string) : criocr.Remote unit :=
  {| criocr.grpc_DialContext := λ _ _ d, (None, d);
     criocr.conn_Close := λ d, (tt, d);
     criocr.client_CheckpointContainer := λ r d,
       (if member (criocr.cp_Id r) refused
        then Some (ErrExternal "no such container") else None, d);
     criocr.client_RestoreContainer := λ r d,
       (if member (criocr.rs_Id r) refused
        then (None, Some (ErrExternal "no such container"))
        else (Some {| criocr.resp_Id := criocr.rs_Id r; criocr.resp_Pod := false;
                      criocr.resp_RestoredContainers := [] |}, None), d);
     criocr.cli_ShowSubcommandHelp := λ d, (None, d);
     criocr.json_MarshalIndent := λ rs,
       inr (join_path (omap (λ r, criocr.resp_Id <$> r) rs)) |}.

Definition command_line (ids : list string) : criocr.Context :=
  {| criocr.Args := ids; criocr.flag_connect := "/run/crio/crio.sock";
     criocr.flag_timeout := 10; criocr.flag_export := "";
     criocr.flag_import := ""; criocr.flag_keep := false;
     criocr.flag_leave_running := false; criocr.flag_tcp_established := false;
     criocr.flag_compress := "zstd"; criocr.flag_pod := None |}.

End demo.

(** * Properties *)


(** Unfolding the statements of the embedding. *)
Ltac unfold_go :=
  unfold check, try_, return_if, host_call in *;
  unfold mbind, mret, M_bind, M_ret in *;
  unfold fn, proc, call, defer_, bind, return_, panic, gets, get, modify, emit,
    unit_ in *.

(** ** Name reservation *)

Section names.
Context {Host TruncIndex : Type}.
Implicit Types c : lib.ContainerServer (Host := Host) (TruncIndex := TruncIndex).

Lemma set_name_index_same i c : lib.set_name_index i (lib.name_index i c) c = c.
Proof. by destruct i, c. Qed.

Lemma name_index_set i v c : lib.name_index i (lib.set_name_index i v c) = v.
Proof. by destruct i. Qed.

  (** What a reserve call does, for either registrar. *)
Lemma ReserveName_run i id n c :
    ∃ fmt,
      lib.ReserveName i id n c =
        match registrar.Reserve n id (lib.name_index i c) with
        | (None, r) =>
            (Done (n, None), lib.set_name_index i r c, [EvReserve i n id true])
        | (Some e, r) =>
            (Done ("", Some (ErrorfV fmt [FStr n; FStr id] e)),
             lib.set_name_index i r c, [EvReserve i n id false; EvWarn fmt])
        end.
Proof.
    destruct i; eexists; cbn; unfold lib.ReserveContainerName, lib.ReservePodName,
      lib.index_Reserve; unfold_go; cbn;
      destruct (registrar.Reserve _ _ _) as [[e|] r]; cbn; reflexivity.
Qed.

Lemma ReleaseName_run i n c :
    lib.ReleaseName i n c =
      (Done tt, lib.set_name_index i (registrar.Release n (lib.name_index i c)) c,
       [EvRelease i n]).
Proof. by destruct i. Qed.

  (** C3. For either registrar (container names, pod names): reserving a
      free name succeeds and records the id; reserving a name again for the
      id that holds it succeeds and changes nothing; reserving it for another
      id fails with an error that carries the registrar's "name reserved"
      error, and changes nothing; after a release the name can be reserved
      by any id; releasing a name that is not reserved changes nothing. *)
Theorem name_reservation_laws i c (n id id' : string) :
    (lib.name_index i c !! n = None →
       lib.ReserveName i id n c =
         (Done (n, None),
          lib.set_name_index i (<[n := id]> (lib.name_index i c)) c,
          [EvReserve i n id true]))
    ∧ (lib.name_index i c !! n = Some id →
       lib.ReserveName i id n c = (Done (n, None), c, [EvReserve i n id true]))
    ∧ (lib.name_index i c !! n = Some id → id' ≠ id →
       ∃ fmt, lib.ReserveName i id' n c =
         (Done ("", Some (ErrorfV fmt [FStr n; FStr id'] ErrNameReserved)), c,
          [EvReserve i n id' false; EvWarn fmt]))
    ∧ (∀ c1 t1, lib.ReleaseName i n c = (Done tt, c1, t1) →
       lib.name_index i c1 !! n = None
       ∧ ∃ c2 t2, lib.ReserveName i id' n c1 = (Done (n, None), c2, t2)
                  ∧ lib.name_index i c2 !! n = Some id')
    ∧ (lib.name_index i c !! n = None →
       lib.ReleaseName i n c = (Done tt, c, [EvRelease i n])).
Proof.
    split; [|split; [|split; [|split]]].
    - intros Hfree. destruct (ReserveName_run i id n c) as [fmt ->].
      unfold registrar.Reserve. by rewrite Hfree.
    - intros Hheld. destruct (ReserveName_run i id n c) as [fmt ->].
      unfold registrar.Reserve. rewrite Hheld. rewrite decide_True by done.
      by rewrite set_name_index_same.
    - intros Hheld Hne. destruct (ReserveName_run i id' n c) as [fmt ->].
      exists fmt. unfold registrar.Reserve. rewrite Hheld.
      rewrite decide_False by congruence. by rewrite set_name_index_same.
    - intros c1 t1 H. rewrite ReleaseName_run in H. injection H as <- _.
      rewrite name_index_set. split; [unfold registrar.Release; apply lookup_delete_eq|].
      destruct (ReserveName_run i id' n
                  (lib.set_name_index i
                     (registrar.Release n (lib.name_index i c)) c)) as [fmt ->].
      rewrite name_index_set. unfold registrar.Reserve, registrar.Release.
      eexists _, _. rewrite lookup_delete_eq. split; [reflexivity|].
      rewrite name_index_set. apply lookup_insert_eq.
    - intros Hfree. rewrite ReleaseName_run. unfold registrar.Release.
      rewrite delete_id by done. by rewrite set_name_index_same.
Qed.
End names.

Lemma name_reservation_laws_witness :
  lib.name_index CtrNameIndex demo.server0 !! "c1" = None
  ∧ lib.ReserveName CtrNameIndex "id1" "c1" demo.server0 =
      (Done ("c1", None),
       lib.set_name_index CtrNameIndex
         (<["c1" := "id1"]> (lib.name_index CtrNameIndex demo.server0)) demo.server0,
       [EvReserve CtrNameIndex "c1" "id1" true]).
Proof.
  split; [reflexivity|].
  apply (name_reservation_laws CtrNameIndex demo.server0 "c1" "id1" "id2").
  reflexivity.
Defined.

(** ** The state store *)

Section store.
Context {Host TruncIndex : Type} (ops : Collab Host TruncIndex).
Implicit Types c : lib.ContainerServer (Host := Host) (TruncIndex := TruncIndex).

Lemma set_state_same c : lib.set_state (lib.state c) c = c.
Proof. by destruct c. Qed.

  (** C9. A container whose sandbox id names no sandbox in the store:
      AddContainer changes nothing at all (no container added, no sandbox
      touched) and reports nothing; RemoveContainer changes nothing either.
      And whenever AddContainer does change the containers map, the
      container's sandbox is in the sandboxes map, before and after. *)
Theorem AddContainer_needs_sandbox c (ctr : Container) :
    (lib.sandboxes (lib.state c) !! oci.Sandbox ctr = None →
       lib.AddContainer ctr c = (Done tt, c, [])
       ∧ lib.RemoveContainer ctr c = (Done tt, c, []))
    ∧ (∀ c' t, lib.AddContainer ctr c = (Done tt, c', t) →
         lib.containers (lib.state c') ≠ lib.containers (lib.state c) →
         is_Some (lib.sandboxes (lib.state c) !! oci.Sandbox ctr)
         ∧ is_Some (lib.sandboxes (lib.state c') !! oci.Sandbox ctr)
         ∧ lib.containers (lib.state c') !! oci.ID ctr = Some ctr).
Proof.
    split.
    - intros Hnone. unfold lib.AddContainer, lib.RemoveContainer, oci.Get.
      unfold_go. by rewrite Hnone.
    - intros c' t Hrun Hchanged.
      unfold lib.AddContainer, lib.modify_state, oci.Get, oci.Add in Hrun.
      unfold_go.
      destruct (lib.sandboxes (lib.state c) !! oci.Sandbox ctr) as [sb|] eqn:Hsb.
      + cbn in Hrun. injection Hrun as <- _. cbn.
        split; [by eexists|]. split.
        * rewrite lookup_insert_eq. by eexists.
        * apply lookup_insert_eq.
      + injection Hrun as <- _. done.
Qed.

Lemma AddContainer_wf c ctr c' t :
    lib.store_wf c → lib.AddContainer ctr c = (Done tt, c', t) → lib.store_wf c'.
Proof.
    intros Hwf Hrun.
    unfold lib.AddContainer, lib.modify_state, oci.Get, oci.Add in Hrun.
    unfold_go.
    destruct (lib.sandboxes (lib.state c) !! oci.Sandbox ctr) as [sb|] eqn:Hsb.
    - cbn in Hrun. injection Hrun as <- _. intros k x. cbn.
      destruct (decide (oci.ID ctr = k)) as [<-|Hne].
      + rewrite lookup_insert_eq. by intros [= <-].
      + rewrite lookup_insert_ne by done. apply Hwf.
    - by injection Hrun as <- _.
Qed.
End store.

Lemma AddContainer_needs_sandbox_witness :
  lib.sandboxes (lib.state demo.server1) !! oci.Sandbox (demo.container_in "c9" "nowhere")
    = None
  ∧ lib.AddContainer (demo.container_in "c9" "nowhere") demo.server1
    = (Done tt, demo.server1, []).
Proof.
  split; [reflexivity|].
  apply (AddContainer_needs_sandbox demo.server1 (demo.container_in "c9" "nowhere")).
  reflexivity.
Defined.

(** ** Listing containers *)

Section listing.
Context {Host TruncIndex : Type}.
Implicit Types c : lib.ContainerServer (Host := Host) (TruncIndex := TruncIndex).
Implicit Types filters : list (Container → bool).

Lemma range_filters_app x filters acc :
  lib.range_filters x filters acc = acc ++ lib.range_filters x filters [].
Proof.
  revert acc. induction filters as [|f fs IH]; intros acc; cbn.
  - by rewrite app_nil_r.
  - destruct (f x); [|apply IH].
    rewrite IH, (IH [x]). by rewrite <- app_assoc.
Qed.

Lemma range_filters_repeat x filters :
  lib.range_filters x filters [] = repeat x (lib.satisfied x filters).
Proof.
  unfold lib.satisfied. induction filters as [|f fs IH]; cbn; [done|].
  rewrite range_filters_app, IH. by destruct (f x).
Qed.

Lemma range_containers_app l filters acc :
  lib.range_containers l filters acc = acc ++ lib.range_containers l filters [].
Proof.
  revert acc. induction l as [|x l IH]; intros acc; cbn.
  - by rewrite app_nil_r.
  - rewrite IH, (IH (lib.range_filters x filters [])).
    rewrite (range_filters_app x filters acc). by rewrite <- app_assoc.
Qed.

Lemma count_occ_repeat x y n :
  count_occ Container_eq_dec (repeat y n) x = if decide (x = y) then n else 0.
Proof.
  induction n as [|n IH]; cbn; [by destruct (decide _)|].
  destruct (Container_eq_dec y x) as [->|Hne].
  - rewrite IH. by rewrite !decide_True.
  - rewrite IH. by rewrite !decide_False.
Qed.

(** Each stored occurrence of a container is returned once per filter it
    satisfies. *)
Lemma range_containers_count l filters x :
  count_occ Container_eq_dec (lib.range_containers l filters []) x
  = count_occ Container_eq_dec l x * lib.satisfied x filters.
Proof.
  induction l as [|y l IH]; cbn; [done|].
  rewrite range_containers_app, count_occ_app, IH, range_filters_repeat.
  rewrite count_occ_repeat. destruct (Container_eq_dec y x) as [->|Hne].
  - rewrite decide_True by done. lia.
  - rewrite decide_False by done. lia.
Qed.

(** Under [store_wf] the listing of the store has no container twice. *)
Lemma listContainers_once c x :
  lib.store_wf c →
  lib.containers (lib.state c) !! oci.ID x = Some x →
  count_occ Container_eq_dec (oci.List (lib.containers (lib.state c))) x = 1.
Proof.
  intros Hwf Hx. unfold oci.List.
  apply NoDup_count_occ'.
  - apply NoDup_ListNoDup, NoDup_fmap_2_strong; [|apply NoDup_map_to_list].
    intros [k1 x1] [k2 x2] H1%elem_of_map_to_list H2%elem_of_map_to_list; cbn.
    intros ->. apply Hwf in H1, H2. congruence.
  - apply list_elem_of_In, list_elem_of_fmap. exists (oci.ID x, x).
    split; [done|]. by apply elem_of_map_to_list.
Qed.

(** C10. ListContainers changes nothing and reports no error; given one or
    more filters, a stored container is returned once for each filter it
    satisfies (so more than once when it satisfies several); given no filter,
    every stored container is returned exactly once. *)
Theorem ListContainers_multiplicity c filters (x : Container) :
  lib.store_wf c →
  lib.containers (lib.state c) !! oci.ID x = Some x →
  ∃ returned,
    lib.ListContainers filters c = (Done (returned, None), c, [])
    ∧ count_occ Container_eq_dec returned x =
        match filters with
        | [] => 1
        | _ :: _ => lib.satisfied x filters
        end.
Proof.
  intros Hwf Hx. unfold lib.ListContainers, lib.listContainers. unfold_go.
  destruct filters as [|f fs].
  - eexists. split; [reflexivity|]. by apply listContainers_once.
  - eexists. split; [reflexivity|].
    rewrite (range_containers_count _ (f :: fs) x).
    rewrite listContainers_once by done. apply Nat.mul_1_l.
Qed.
End listing.

Lemma ListContainers_multiplicity_witness :
  ∃ returned,
    lib.ListContainers
      [λ _, true; λ x, String.eqb (oci.Sandbox x) "sb1"; λ _, false] demo.server2
    = (Done (returned, None), demo.server2, [])
    ∧ count_occ Container_eq_dec returned (demo.container_in "c5" "sb1") = 2.
Proof.
  apply (ListContainers_multiplicity demo.server2
           [λ _, true; λ x, String.eqb (oci.Sandbox x) "sb1"; λ _, false]
           (demo.container_in "c5" "sb1")).
  - intros k x H.
    change (({[ "c5" := demo.container_in "c5" "sb1" ]} : gmap string Container) !! k
            = Some x) in H.
    apply lookup_singleton_Some in H as [<- <-]. reflexivity.
  - reflexivity.
Defined.

(** ** Removing a sandbox *)

Section removal.
Context {Host TruncIndex : Type} (ops : Collab Host TruncIndex).
Implicit Types c : lib.ContainerServer (Host := Host) (TruncIndex := TruncIndex).

(** RemoveSandbox of an id that is not stored: nothing happens, not even
    the lock is taken. *)
Lemma RemoveSandbox_unknown c id :
  lib.sandboxes (lib.state c) !! id = None →
  lib.RemoveSandbox ops id c = (Done None, c, []).
Proof.
  intros Hnone. unfold lib.RemoveSandbox, oci.Get. unfold_go. by rewrite Hnone.
Qed.

(** The platform cleanup, as modelled: it fails exactly when the level of
    the sandbox's process label cannot be read, and then nothing has changed;
    otherwise it works on the MCS refcounts and the host only. *)
Lemma removeSandboxPlatform_run sb c :
  match selinux_level ops (sandbox.ProcessLabel sb) with
  | inl e =>
      lib.removeSandboxPlatform ops sb c =
        (Done (Some e), c, [EvRemoveSandboxPlatform (sandbox.ID sb)])
  | inr level =>
      ∃ pl h t,
        lib.removeSandboxPlatform ops sb c =
          (Done None,
           lib.set_host h (lib.set_state (lib.set_processLevels pl (lib.state c)) c),
           EvRemoveSandboxPlatform (sandbox.ID sb) :: t)
  end.
Proof.
  unfold lib.removeSandboxPlatform, lib.modify_state, lib.on_host. unfold_go.
  destruct (selinux_level ops (sandbox.ProcessLabel sb)) as [e|level]; cbn;
    [done|].
  destruct c as [h ? ? ? ? [? ? ? levels] ?]; cbn.
  destruct (levels !! level) as [n|]; cbn.
  - destruct (n - 1 =? 0)%Z; cbn.
    + destruct (label_ReleaseLabel ops (sandbox.ProcessLabel sb) h) as [[] h1].
      exists (delete level (<[level := (n - 1)%Z]> levels)), h1.
      eexists. reflexivity.
    + exists (<[level := (n - 1)%Z]> levels), h. eexists. reflexivity.
  - exists levels, h, []. reflexivity.
Qed.

End removal.


(** ** Namespace handles *)

Section namespaces.
Context {Host TruncIndex : Type} (ops : Collab Host TruncIndex).



(** The arguments and would-be paths of valid kinds. *)
Lemma pinns_arguments_valid cfg fname nsTypes args infos (h : Host) :
  Forall (λ k, is_Some (sandbox.typeToArg k)) nsTypes →
  sandbox.pinns_arguments ops cfg fname nsTypes args infos h =
    (Next (args ++ omap sandbox.typeToArg nsTypes,
           infos ++ map (λ k, {| sandbox.path := sandbox.pinned_path ops cfg fname k;
                                 sandbox.info_nsType := k |}) nsTypes), h, []).
Proof.
  intros Hvalid. revert args infos.
  induction Hvalid as [|k ks [arg Hk] _ IH]; intros args infos; cbn.
  - by rewrite !app_nil_r.
  - rewrite Hk. rewrite IH. cbn. by rewrite <- !app_assoc.
Qed.

(** The cleanup loop asks the host to unmount every path once, in order,
    and appends the paths whose unmount was answered with an error. *)
Lemma cleanup_mounts_run infos failed (h : Host) :
  sandbox.cleanup_mounts ops infos failed h =
    (Next (failed ++ sandbox.not_unmounted
                       (sandbox.unmount_each ops (map sandbox.path infos) h).1),
     (sandbox.unmount_each ops (map sandbox.path infos) h).2,
     map (λ i, EvUnmount (sandbox.path i) MNT_DETACH) infos).
Proof.
  revert failed h. induction infos as [|i infos IH]; intros failed h; cbn.
  - by rewrite app_nil_r.
  - unfold sandbox.on_host. unfold_go. cbn.
    destruct (unix_Unmount ops (sandbox.path i) MNT_DETACH h) as [[e|] h1].
    + rewrite IH.
      destruct (sandbox.unmount_each ops (map sandbox.path infos) h1) as [answers h2].
      cbn. by rewrite <- app_assoc.
    + rewrite IH.
      by destruct (sandbox.unmount_each ops (map sandbox.path infos) h1) as [answers h2].
Qed.

(** Every path is answered once, in the order asked. *)
Lemma unmount_each_paths paths (h : Host) :
  (sandbox.unmount_each ops paths h).1.*1 = paths.
Proof.
  revert h. induction paths as [|p paths IH]; intros h; cbn; [done|].
  destruct (unix_Unmount ops p MNT_DETACH h) as [e h1].
  specialize (IH h1).
  destruct (sandbox.unmount_each ops paths h1) as [answers h2].
  cbn in *. by rewrite IH.
Qed.

(** The paths that would not unmount are those answered with an error. *)
Lemma not_unmounted_spec answers p :
  p ∈ sandbox.not_unmounted answers ↔ ∃ err, (p, Some err) ∈ answers.
Proof.
  unfold sandbox.not_unmounted. rewrite list_elem_of_omap. split.
  - intros ([q [err|]] & Hin & Heq); cbn in Heq; [|done].
    injection Heq as ->. by exists err.
  - intros (err & Hin). by exists (p, Some err).
Qed.

(** C6. When the kinds asked for are all pinnable and the helper exits with
    an error, pinNamespaces asks the host for a detaching unmount of the
    would-be path of every requested kind, once each and in order, and
    returns no namespace list but an error.  With [failed] the paths whose
    unmount was answered with an error, in the order asked: when there is
    none the error is the helper's, wrapped as "failed to pin namespaces";
    otherwise it is the "failed to cleanup" error that lists exactly
    [failed] and still carries the helper's error. *)
Theorem pinNamespaces_helper_failure nsTypes cfg (h h1 h2 : Host) fname output e :
  Forall (λ k, is_Some (sandbox.typeToArg k)) nsTypes →
  uuid_New ops h = (fname, h1) →
  exec_Output ops (PinnsPath cfg)
    (["-d"; NamespacesDir cfg; "-f"; fname] ++ omap sandbox.typeToArg nsTypes) h1
    = ((output, Some e), h2) →
  let paths := map (sandbox.pinned_path ops cfg fname) nsTypes in
  let answers := sandbox.unmount_each ops paths h2 in
  let failed := sandbox.not_unmounted answers.1 in
  sandbox.pinNamespaces ops nsTypes cfg h =
    (Done (None,
           Some (match failed with
                 | [] => ErrorfV "failed to pin namespaces %v: %s %v"
                           [FList nsTypes; FStr output] e
                 | _ :: _ => ErrorfV "failed to cleanup %v after pinns failure %s %v"
                               [FList failed; FStr output] e
                 end)),
     answers.2,
     [EvCall "uuid.New" [];
      EvExec (PinnsPath cfg)
        (["-d"; NamespacesDir cfg; "-f"; fname] ++ omap sandbox.typeToArg nsTypes)]
     ++ map (λ p, EvUnmount p MNT_DETACH) paths)
  ∧ answers.1.*1 = paths
  ∧ ∀ p, p ∈ failed ↔ ∃ err, (p, Some err) ∈ answers.1.
Proof.
  intros Hvalid Huuid Hexec paths answers failed.
  split; [|split; [apply unmount_each_paths | apply not_unmounted_spec]].
  pose proof (pinns_arguments_valid cfg fname nsTypes
                ["-d"; NamespacesDir cfg; "-f"; fname] [] h1 Hvalid) as Hargs.
  pose proof (cleanup_mounts_run
                (map (λ k, {| sandbox.path := sandbox.pinned_path ops cfg fname k;
                              sandbox.info_nsType := k |}) nsTypes) [] h2) as Hclean.
  set (infos := map _ nsTypes) in Hargs, Hclean.
  assert (Hpaths : map sandbox.path infos = paths)
    by (unfold infos, paths; by rewrite map_map).
  assert (Htrace : map (λ i, EvUnmount (sandbox.path i) MNT_DETACH) infos =
                   map (λ p, EvUnmount p MNT_DETACH) paths)
    by (unfold infos, paths; by rewrite !map_map).
  rewrite Hpaths, Htrace in Hclean.
  fold answers in Hclean. fold failed in Hclean.
  clearbody failed. clearbody answers. clearbody infos. clearbody paths.
  unfold sandbox.pinNamespaces, sandbox.on_host. unfold_go. cbn.
  rewrite Huuid. cbn in Hargs. rewrite Hargs. cbn. cbn in Hexec. rewrite Hexec.
  rewrite Hclean.
  destruct failed; cbn; rewrite ?app_nil_r; reflexivity.
Qed.
End namespaces.


Lemma pinNamespaces_helper_failure_witness :
  sandbox.pinNamespaces demo.ops [NETNS; IPCNS] demo.cfg0 demo.host_pinns_fails =
    (Done (None,
           Some (ErrorfV "failed to cleanup %v after pinns failure %s %v"
                   [FList ["/var/run/ipcns/f00d"]; FStr ""]
                   (ErrExternal "exit status 1"))),
     demo.host_pinns_fails,
     [EvCall "uuid.New" [];
      EvExec "/usr/bin/pinns" ["-d"; "/var/run"; "-f"; "f00d"; "-n"; "-i"];
      EvUnmount "/var/run/netns/f00d" MNT_DETACH;
      EvUnmount "/var/run/ipcns/f00d" MNT_DETACH]).
Proof.
  assert (Hvalid : Forall (λ k, is_Some (sandbox.typeToArg k)) [NETNS; IPCNS])
    by (repeat constructor; by eexists).
  exact (proj1 (pinNamespaces_helper_failure demo.ops [NETNS; IPCNS] demo.cfg0
                  demo.host_pinns_fails demo.host_pinns_fails demo.host_pinns_fails
                  "f00d" "" (ErrExternal "exit status 1") Hvalid eq_refl eq_refl)).
Defined.

(** ** Joining a namespace *)

Section joins.
Context {Host TruncIndex : Type} (ops : Collab Host TruncIndex).

(** What getNamespace checks: that the path is a namespace file and that it
    can be opened. *)
Lemma getNamespace_run nsPath (h : Host) :
  sandbox.getNamespace ops nsPath h =
    match nspkg_IsNSorErr ops nsPath h with
    | (Some e, h1) => (Done (None, Some e), h1, [EvIsNSorErr nsPath])
    | (None, h1) =>
        match nspkg_GetNS ops nsPath h1 with
        | (inl e, h2) => (Done (None, Some e), h2, [EvIsNSorErr nsPath; EvGetNS nsPath])
        | (inr handle, h2) =>
            (Done (Some {| ns := Some handle; closed := false; initialized := false;
                           nsType := ""; nsPath := nsPath |}, None),
             h2, [EvIsNSorErr nsPath; EvGetNS nsPath])
        end
    end.
Proof.
  unfold sandbox.getNamespace, sandbox.on_host. unfold_go. cbn.
  destruct (nspkg_IsNSorErr ops nsPath h) as [[e|] h1]; cbn; [done|].
  by destruct (nspkg_GetNS ops nsPath h1) as [[e|handle] h2].
Qed.

(** C7. A join of kind [k] (NetNsJoin, IpcNsJoin, UtsNsJoin and UserNsJoin
    are the joins of "net", "ipc", "uts" and "user") first verifies that the
    path refers to a namespace of kind [k], and fails, recording nothing,
    when it does not.  On a sandbox that already records a handle of that
    kind it then fails, and leaves the sandbox, and so the recorded handle,
    as it is.  Otherwise it succeeds exactly when getNamespace finds the
    path to be a namespace file that can be opened, and then records the
    handle under [k].  So a join that succeeds was given the path of a
    namespace of the expected kind, and a join on a sandbox that holds a
    handle of that kind fails and replaces nothing. *)
Theorem join_checks_for_a_namespace (k : NSType) (nspath : string)
    (sb : Sandbox) (h : Host) :
  sandbox.join ops k nspath (sb, h) =
    (if bool_decide (nsfs_kind ops nspath h = Some k) then
       match sb_ns sb !! k with
       | Some current =>
           (Done (Some (Errorf "sandbox already has a %s namespace, cannot join another"
                          [FStr k])), (sb, h), [])
       | None =>
           match nspkg_IsNSorErr ops nspath h with
           | (Some e, h1) => (Done (Some e), (sb, h1), [EvIsNSorErr nspath])
           | (None, h1) =>
               match nspkg_GetNS ops nspath h1 with
               | (inl e, h2) =>
                   (Done (Some e), (sb, h2), [EvIsNSorErr nspath; EvGetNS nspath])
               | (inr handle, h2) =>
                   (Done None,
                    (sandbox.set_sb_ns
                       (<[k := {| ns := Some handle; closed := false;
                                  initialized := false; nsType := "";
                                  nsPath := nspath |}]> (sb_ns sb)) sb, h2),
                    [EvIsNSorErr nspath; EvGetNS nspath])
               end
           end
       end
     else
       (Done (Some (Errorf "%s is not the path of a %s namespace"
                      [FStr nspath; FStr k])), (sb, h), []))
  ∧ (∀ sb' h' t,
       sandbox.join ops k nspath (sb, h) = (Done None, (sb', h'), t) →
       nsfs_kind ops nspath h = Some k
       ∧ sb_ns sb !! k = None
       ∧ (nsPath <$> sb_ns sb' !! k) = Some nspath)
  ∧ (∀ current, sb_ns sb !! k = Some current →
       ∃ e, sandbox.join ops k nspath (sb, h) = (Done (Some e), (sb, h), [])).
Proof.
  assert (Hrun : sandbox.join ops k nspath (sb, h) =
    (if bool_decide (nsfs_kind ops nspath h = Some k) then
       match sb_ns sb !! k with
       | Some current =>
           (Done (Some (Errorf "sandbox already has a %s namespace, cannot join another"
                          [FStr k])), (sb, h), [])
       | None =>
           match nspkg_IsNSorErr ops nspath h with
           | (Some e, h1) => (Done (Some e), (sb, h1), [EvIsNSorErr nspath])
           | (None, h1) =>
               match nspkg_GetNS ops nspath h1 with
               | (inl e, h2) =>
                   (Done (Some e), (sb, h2), [EvIsNSorErr nspath; EvGetNS nspath])
               | (inr handle, h2) =>
                   (Done None,
                    (sandbox.set_sb_ns
                       (<[k := {| ns := Some handle; closed := false;
                                  initialized := false; nsType := "";
                                  nsPath := nspath |}]> (sb_ns sb)) sb, h2),
                    [EvIsNSorErr nspath; EvGetNS nspath])
               end
           end
       end
     else
       (Done (Some (Errorf "%s is not the path of a %s namespace"
                      [FStr nspath; FStr k])), (sb, h), []))).
  { unfold sandbox.join, sandbox.nsJoin. unfold_go. cbn.
    destruct (bool_decide (nsfs_kind ops nspath h = Some k)); cbn; [|done].
    destruct (sb_ns sb !! k) as [current|]; cbn; [done|].
    rewrite getNamespace_run.
    destruct (nspkg_IsNSorErr ops nspath h) as [[e|] h1]; cbn; [done|].
    by destruct (nspkg_GetNS ops nspath h1) as [[e|handle] h2]. }
  split; [exact Hrun|]. split.
  - intros sb' h' t. rewrite Hrun.
    destruct (bool_decide (nsfs_kind ops nspath h = Some k)) eqn:Hkind; [|done].
    apply bool_decide_eq_true_1 in Hkind.
    destruct (sb_ns sb !! k) as [current|]; [done|].
    destruct (nspkg_IsNSorErr ops nspath h) as [[e|] h1]; [done|].
    destruct (nspkg_GetNS ops nspath h1) as [[e|handle] h2]; [done|].
    intros [= <- <- <-]. repeat split; [done|]. cbn.
    by rewrite lookup_insert_eq.
  - intros current Hcur. rewrite Hrun, Hcur.
    destruct (bool_decide (nsfs_kind ops nspath h = Some k)); by eexists.
Qed.
End joins.

Lemma join_checks_for_a_namespace_witness :
  demo.ns_files demo.host0 !! "/proc/self/ns/ipc" = Some IPCNS
  ∧ sandbox.NetNsJoin demo.ops "/proc/self/ns/ipc" (demo.sandbox1, demo.host0) =
      (Done (Some (Errorf "%s is not the path of a %s namespace"
                     [FStr "/proc/self/ns/ipc"; FStr NETNS])),
       (demo.sandbox1, demo.host0), [])
  ∧ ∃ sb',
      sandbox.IpcNsJoin demo.ops "/proc/self/ns/ipc" (demo.sandbox1, demo.host0) =
        (Done None, (sb', demo.host0),
         [EvIsNSorErr "/proc/self/ns/ipc"; EvGetNS "/proc/self/ns/ipc"])
      ∧ (nsPath <$> sb_ns sb' !! IPCNS) = Some "/proc/self/ns/ipc".
Proof.
  split; [reflexivity|]. split.
  - exact (proj1 (join_checks_for_a_namespace demo.ops NETNS "/proc/self/ns/ipc"
                    demo.sandbox1 demo.host0)).
  - eexists. split; [reflexivity|].
    refine (proj2 (proj2 (proj1 (proj2 (join_checks_for_a_namespace demo.ops IPCNS
              "/proc/self/ns/ipc" demo.sandbox1 demo.host0)) _ _ _ eq_refl))).
Defined.

(** ** The checkpoint and restore commands *)

Section client.
Context {Daemon : Type} (remote : criocr.Remote Daemon).
Implicit Types c : criocr.Context.

(** The arguments at positions [i], ..., [i + k - 1]. *)
Lemma arguments_from (l : list string) i k :
  (i + k ≤ length l)%nat →
  map (λ j, nth j l "") (seq i k) = take k (drop i l).
Proof.
  revert i. induction k as [|k IH]; intros i Hlen; cbn; [done|].
  destruct (lookup_lt_is_Some_2 l i) as [x Hx]; [lia|].
  rewrite (drop_S l x i Hx). cbn. rewrite IH by lia.
  by rewrite (nth_lookup_Some l i "" x Hx).
Qed.

Lemma arguments_first c k :
  (k ≤ criocr.NArg c)%nat →
  map (λ j, criocr.Get j c) (seq 0 k) = take k (criocr.Args c).
Proof. intros Hk. unfold criocr.Get. by rewrite arguments_from. Qed.

(** The loop stops at the first request that fails; each id is printed
    right after its request succeeded. *)
Lemma checkpoint_loop_run c request_ i todo (d : Daemon) :
  ∃ k d',
    (k ≤ todo)%nat
    ∧ ((k = todo
        ∧ criocr.checkpoint_loop remote c request_ i todo d =
            (Next tt, d', criocr.checkpointed (map (λ j, criocr.Get j c) (seq i k))))
       ∨ ((k < todo)%nat
          ∧ ∃ e, criocr.checkpoint_loop remote c request_ i todo d =
                   (Ret (Some e), d',
                    criocr.checkpointed (map (λ j, criocr.Get j c) (seq i k))
                    ++ [EvRPC "CheckpointContainer" (criocr.Get (i + k)%nat c) false]))).
Proof.
  revert request_ i d. induction todo as [|todo IH]; intros request_ i d.
  - exists 0, d. split; [done|]. left. by split.
  - cbn. unfold criocr.request. unfold_go. cbn.
    destruct (criocr.client_CheckpointContainer remote _ d) as [[e|] d1]; cbn.
    + exists 0, d1. split; [lia|]. right. split; [lia|]. exists e.
      by rewrite Nat.add_0_r.
    + destruct (IH {| criocr.cp_Id := criocr.Get i c;
                      criocr.cp_CommonOptions := criocr.cp_CommonOptions request_;
                      criocr.cp_LeaveRunning := criocr.cp_LeaveRunning request_ |}
                  (S i) d1) as (k & d' & Hk & [[-> Hrun]|[Hlt [e' Hrun]]]).
      * exists (S todo), d'. split; [done|]. left. split; [done|].
        unfold_go. by rewrite Hrun.
      * exists (S k), d'. split; [lia|]. right. split; [lia|]. exists e'.
        unfold_go. rewrite Hrun. cbn. by rewrite Nat.add_succ_r.
Qed.

Lemma collect_ids_run c i todo ids :
  criocr.collect_ids c i todo ids = ids ++ map (λ j, criocr.Get j c) (seq i todo).
Proof.
  revert i ids. induction todo as [|todo IH]; intros i ids; cbn.
  - by rewrite app_nil_r.
  - rewrite IH. by rewrite <- app_assoc.
Qed.

(** The first error among answers that all succeeded, and among answers of
    which the last is the only one that failed. *)
Lemma first_error_none answers :
  Forall (λ a, a.2 = None) answers → criocr.first_error answers = None.
Proof.
  unfold criocr.first_error. induction 1 as [|[r err] answers Ha _ IH]; [done|].
  cbn in Ha. subst err. exact IH.
Qed.

Lemma first_error_last ok r e :
  Forall (λ a, a.2 = None) ok →
  criocr.first_error (ok ++ [(r, Some e)]) = Some e.
Proof.
  unfold criocr.first_error. induction 1 as [|[r' err] ok Ha _ IH]; [done|].
  cbn in Ha. subst err. exact IH.
Qed.

(** The answers: either one for every id, all without an error, or those
    up to the first error, which is the last of them. *)
Lemma restore_answers_shape pod options ids (d : Daemon) :
  let answers := (criocr.restore_answers remote pod options ids d).1 in
  (length answers = length ids ∧ Forall (λ a, a.2 = None) answers)
  ∨ (∃ ok r e, answers = ok ++ [(r, Some e)]
               ∧ Forall (λ a, a.2 = None) ok
               ∧ (length ok < length ids)%nat).
Proof.
  cbn zeta. revert d. induction ids as [|id ids IH]; intros d; cbn.
  - left. by split.
  - destruct (criocr.client_RestoreContainer remote _ d) as [[r [e|]] d1]; cbn.
    + right. exists [], r, e. repeat split; [done|cbn; lia].
    + specialize (IH d1).
      destruct (criocr.restore_answers remote pod options ids d1) as [more d2].
      cbn in *. destruct IH as [[Hlen Hall]|(ok & r' & e & -> & Hall & Hlen)].
      * left. split; [by rewrite Hlen|]. by constructor.
      * right. exists ((r, None) :: ok), r', e. repeat split; [by constructor|].
        cbn. lia.
Qed.

(** The restore loop makes the requests in order, stops at the first that
    fails, prints nothing, and hands on the responses it collected: those
    it was given, then one for each request, in order. *)
Lemma restore_loop_run request_ ids rs (d : Daemon) :
  let answers :=
    criocr.restore_answers remote (criocr.rs_PodSandboxId request_)
      (criocr.rs_CommonOptions request_) ids d in
  criocr.restore_loop remote request_ ids rs d =
    (match criocr.first_error answers.1 with
     | Some e => Ret (Some e)
     | None => Next (rs ++ answers.1.*1)
     end, answers.2, criocr.restore_asked ids answers.1).
Proof.
  cbn zeta. revert request_ rs d.
  induction ids as [|id ids IH]; intros request_ rs d.
  - cbn. by rewrite app_nil_r.
  - cbn. unfold criocr.request. unfold_go. cbn.
    destruct (criocr.client_RestoreContainer remote _ d) as [[r [e|]] d1]; cbn;
      [by destruct ids|].
    rewrite IH. cbn.
    destruct (criocr.restore_answers remote _ _ ids d1) as [more d2]. cbn.
    change (criocr.first_error ((r, None) :: more))
      with (criocr.first_error more).
    destruct (criocr.first_error more); [done|].
    by rewrite <- app_assoc.
Qed.
End client.

Section commands.
Context {Daemon : Type} (remote : criocr.Remote Daemon).
Implicit Types c : criocr.Context.

(** The checkpoint command, once connected and with a known compression:
    the ids are asked for in order up to the first failure; each id that
    succeeded is on the output stream before the next request is made; the
    exit status is 0 exactly when no request failed. *)
Lemma checkpoint_exit_and_output c (d d1 : Daemon) :
  criocr.grpc_DialContext remote (criocr.flag_connect c) (criocr.flag_timeout c) d
    = (None, d1) →
  criocr.NArg c ≠ 0%nat →
  criocr.ToLower (criocr.flag_compress c) ∈ ["none"; "gzip"; "zstd"] →
  ∃ k r d',
    (k ≤ criocr.NArg c)%nat
    ∧ criocr.checkpointAction remote c d =
        (Done r, d',
         [EvCall "grpc.DialContext" [criocr.flag_connect c]]
         ++ criocr.checkpointed (take k (criocr.Args c))
         ++ (if decide (k = criocr.NArg c) then []
             else [EvRPC "CheckpointContainer" (criocr.Get k c) false])
         ++ [EvCall "conn.Close" []])
    ∧ (criocr.exit_status r = 0%Z ↔ k = criocr.NArg c).
Proof.
  intros Hdial Hargs Hcompress.
  assert (Hn : Nat.eqb (criocr.NArg c) 0 = false) by by apply Nat.eqb_neq.
  assert (∃ compression,
    (let s := criocr.ToLower (criocr.flag_compress c) in
     if String.eqb s "none" then mret criocr.Uncompressed
     else if String.eqb s "gzip" then mret criocr.Gzip
     else if String.eqb s "zstd" then mret criocr.Zstd
     else return_ (Some (Errorf "Selected compression algorithm (%q) not supported\n"
                           [FStr (criocr.flag_compress c)])))
    = (mret compression : M Daemon event (option error) criocr.Compression))
    as [compression Hswitch].
  { cbn zeta. repeat (apply elem_of_cons in Hcompress as [->|Hcompress]);
      [by eexists..|]. by apply elem_of_nil in Hcompress. }
  unfold criocr.checkpointAction, criocr.getClientConnection, criocr.on_daemon.
  cbn zeta in Hswitch. rewrite Hswitch. clear Hswitch.
  unfold_go. cbn. rewrite Hn, Hdial. cbn.
  match goal with
  | |- context [criocr.checkpoint_loop remote c ?rq 0 (criocr.NArg c) d1] =>
      destruct (checkpoint_loop_run remote c rq 0 (criocr.NArg c) d1)
        as (k & d' & Hk & [[-> Hrun]|[Hlt [e Hrun]]]); rewrite Hrun; clear Hrun
  end; cbn.
  - destruct (criocr.conn_Close remote d') as [[] d2].
    exists (criocr.NArg c), None, d2. split; [done|]. rewrite decide_True by done.
    rewrite arguments_first by done. cbn. rewrite !app_nil_r. done.
  - destruct (criocr.conn_Close remote d') as [[] d2].
    exists k, (Some e), d2. split; [lia|]. rewrite decide_False by lia.
    rewrite arguments_first by lia. cbn. split; [|split; [done|lia]].
    by rewrite <- !app_assoc.
Qed.
(** The ids of the restore action are the arguments, or the empty id when
    there is none (restore from an archive). *)
Lemma restore_ids_collected c :
  (if Nat.ltb 0 (criocr.NArg c)
   then criocr.collect_ids c 0 (criocr.NArg c) [] else [""])
  = criocr.restore_ids c.
Proof.
  unfold criocr.restore_ids. destruct (Nat.ltb 0 (criocr.NArg c)); [|done].
  rewrite collect_ids_run, arguments_first by done. cbn.
  unfold criocr.NArg. by rewrite firstn_all.
Qed.

(** The restore command, once connected: the ids are asked for in order up
    to the first failure.  When one fails its error is returned and nothing
    has been written to the output stream; when none fails the responses
    collected, one for each id in order, are encoded and written in one
    piece, and nil is returned (the encoder's error, with nothing written,
    if the encoder fails). *)
Lemma restore_exit_and_output c (d d1 : Daemon) :
  criocr.grpc_DialContext remote (criocr.flag_connect c) (criocr.flag_timeout c) d
    = (None, d1) →
  criocr.NArg c ≠ 0%nat ∨ criocr.flag_import c ≠ "" →
  let answers :=
    criocr.restore_answers remote (criocr.restore_pod c) (criocr.restore_options c)
      (criocr.restore_ids c) d1 in
  criocr.restoreAction remote c d =
    (Done match criocr.first_error answers.1,
                criocr.json_MarshalIndent remote answers.1.*1 with
          | Some e, _ => Some e
          | None, inl e => Some e
          | None, inr _ => None
          end,
     (criocr.conn_Close remote answers.2).2,
     [EvCall "grpc.DialContext" [criocr.flag_connect c]]
     ++ criocr.restore_asked (criocr.restore_ids c) answers.1
     ++ match criocr.first_error answers.1,
              criocr.json_MarshalIndent remote answers.1.*1 with
        | None, inr result => [EvStdout result]
        | _, _ => []
        end
     ++ [EvCall "conn.Close" []]).
Proof.
  intros Hdial Hasked answers.
  assert (Hhelp : Nat.eqb (criocr.NArg c) 0 && String.eqb (criocr.flag_import c) ""
                  = false).
  { apply andb_false_iff. destruct Hasked as [H|H].
    - left. by apply Nat.eqb_neq.
    - right. by apply String.eqb_neq. }
  unfold criocr.restoreAction, criocr.getClientConnection, criocr.on_daemon.
  cbn zeta. rewrite restore_ids_collected.
  unfold_go. cbn. rewrite Hhelp, Hdial. cbn.
  rewrite restore_loop_run. cbn.
  change (criocr.restore_answers remote _ _ (criocr.restore_ids c) d1) with answers.
  clearbody answers. destruct answers as [answers d2]. cbn.
  destruct (criocr.first_error answers) as [e|]; cbn.
  - destruct (criocr.conn_Close remote d2) as [[] d3]. cbn.
    by rewrite <- ?app_assoc, ?app_nil_r.
  - destruct (criocr.json_MarshalIndent remote answers.*1) as [e|result]; cbn;
      destruct (criocr.conn_Close remote d2) as [[] d3]; cbn;
      by rewrite <- ?app_assoc, ?app_nil_r.
Qed.

(** C8, as the code has it.  Once connected to the daemon:
    the checkpoint command (given ids and a compression that lower-cases to
    none, gzip or zstd) asks for the ids in order, exits with status 0
    exactly when every request succeeded and stops at the first that fails,
    and every id that succeeded is on the output stream, each written right
    after its request;
    the restore command asks the daemon for the ids in order, up to and
    including the first whose request fails.  [answers] being what the
    daemon answered: when a request failed, the command returns that error,
    so it exits with status 1, and it has written nothing to the output
    stream; when none failed, there is one answer for each id, and the
    command encodes the responses of these answers, in order, as one
    document, writes it and exits with status 0, unless the encoder fails:
    then it writes nothing and returns the encoder's error. *)
Theorem checkpoint_restore_exit_codes c (d d1 : Daemon) :
  criocr.grpc_DialContext remote (criocr.flag_connect c) (criocr.flag_timeout c) d
    = (None, d1) →
  (criocr.NArg c ≠ 0%nat →
   criocr.ToLower (criocr.flag_compress c) ∈ ["none"; "gzip"; "zstd"] →
   ∃ k r d',
     (k ≤ criocr.NArg c)%nat
     ∧ criocr.checkpointAction remote c d =
         (Done r, d',
          [EvCall "grpc.DialContext" [criocr.flag_connect c]]
          ++ criocr.checkpointed (take k (criocr.Args c))
          ++ (if decide (k = criocr.NArg c) then []
              else [EvRPC "CheckpointContainer" (criocr.Get k c) false])
          ++ [EvCall "conn.Close" []])
     ∧ (criocr.exit_status r = 0%Z ↔ k = criocr.NArg c))
  ∧ (criocr.NArg c ≠ 0%nat ∨ criocr.flag_import c ≠ "" →
     let ids := criocr.restore_ids c in
     let answers :=
       criocr.restore_answers remote (criocr.restore_pod c)
         (criocr.restore_options c) ids d1 in
     let failed := criocr.first_error answers.1 in
     let encoded := criocr.json_MarshalIndent remote answers.1.*1 in
     let r := match failed, encoded with
              | Some e, _ => Some e
              | None, inl e => Some e
              | None, inr _ => None
              end in
     let written := match failed, encoded with
                    | None, inr result => [EvStdout result]
                    | _, _ => []
                    end in
     criocr.restoreAction remote c d =
       (Done r, (criocr.conn_Close remote answers.2).2,
        [EvCall "grpc.DialContext" [criocr.flag_connect c]]
        ++ criocr.restore_asked ids answers.1 ++ written
        ++ [EvCall "conn.Close" []])
     ∧ (failed = None →
        length answers.1 = length ids ∧ Forall (λ a, a.2 = None) answers.1)
     ∧ (∀ e, failed = Some e →
        ∃ ok a, answers.1 = ok ++ [(a, Some e)]
                ∧ Forall (λ a, a.2 = None) ok
                ∧ (length ok < length ids)%nat)
     ∧ (criocr.exit_status r = 0%Z ↔
        failed = None ∧ ∃ result, encoded = inr result)).
Proof.
  intros Hdial. split.
  - intros Hargs Hcompress. by apply (checkpoint_exit_and_output c d d1).
  - intros Hasked ids answers failed encoded r written.
    split; [by apply (restore_exit_and_output c d d1)|].
    pose proof (restore_answers_shape remote (criocr.restore_pod c)
                  (criocr.restore_options c) ids d1) as Hshape.
    cbn zeta in Hshape. fold answers in Hshape.
    assert (Hfailed :
      (failed = None ∧ length answers.1 = length ids
       ∧ Forall (λ a, a.2 = None) answers.1)
      ∨ (∃ ok a e, failed = Some e ∧ answers.1 = ok ++ [(a, Some e)]
                   ∧ Forall (λ a, a.2 = None) ok
                   ∧ (length ok < length ids)%nat)).
    { destruct Hshape as [[Hlen Hall]|(ok & a & e & Heq & Hall & Hlen)].
      - left. split; [by apply first_error_none|done].
      - right. exists ok, a, e. split; [|done].
        unfold failed. rewrite Heq. by apply first_error_last. }
    subst r written. clearbody failed encoded.
    destruct Hfailed as [(-> & Hlen & Hall)|(ok & a & e & -> & Heq & Hall & Hlen)].
    + split; [done|]. split; [done|].
      destruct encoded as [e|result]; cbn.
      * split; [done|]. by intros [_ [? ?]].
      * split; [|done]. intros _. split; [done|]. by exists result.
    + split; [done|]. split.
      * intros e' [= <-]. by exists ok, a.
      * cbn. split; [done|]. by intros [? _].
Qed.
End commands.

Lemma checkpoint_restore_exit_codes_witness :
  ∃ k r d',
    (k ≤ 3)%nat
    ∧ criocr.checkpointAction (demo.remote ["c"]) (demo.command_line ["a"; "b"; "c"]) tt =
        (Done r, d',
         [EvCall "grpc.DialContext" ["/run/crio/crio.sock"]]
         ++ criocr.checkpointed (take k ["a"; "b"; "c"])
         ++ (if decide (k = 3%nat) then []
             else [EvRPC "CheckpointContainer"
                     (criocr.Get k (demo.command_line ["a"; "b"; "c"])) false])
         ++ [EvCall "conn.Close" []])
    ∧ (criocr.exit_status r = 0%Z ↔ k = 3%nat).
Proof.
  apply (proj1 (checkpoint_restore_exit_codes (demo.remote ["c"])
                  (demo.command_line ["a"; "b"; "c"]) tt tt eq_refl)).
  - discriminate.
  - apply list_elem_of_In. vm_compute. tauto.
Defined.

(** A run of the checkpoint command: "a" and "b" are written, "c" fails. *)
Example checkpoint_third_fails :
  criocr.checkpointAction (demo.remote ["c"]) (demo.command_line ["a"; "b"; "c"]) tt =
    (Done (Some (ErrExternal "no such container")), tt,
     [EvCall "grpc.DialContext" ["/run/crio/crio.sock"];
      EvRPC "CheckpointContainer" "a" true; EvStdout "a";
      EvRPC "CheckpointContainer" "b" true; EvStdout "b";
      EvRPC "CheckpointContainer" "c" false;
      EvCall "conn.Close" []]).
Proof. reflexivity. Qed.

(** A run of the restore command: "a" and "b" are restored, then the two
    responses are written as one document. *)
Example restore_both_succeed :
  criocr.restoreAction (demo.remote []) (demo.command_line ["a"; "b"]) tt =
    (Done None, tt,
     [EvCall "grpc.DialContext" ["/run/crio/crio.sock"];
      EvRPC "RestoreContainer" "a" true; EvRPC "RestoreContainer" "b" true;
      EvStdout "a/b";
      EvCall "conn.Close" []]).
Proof. reflexivity. Qed.

(** C8, as the spec has it, fails for the restore command: "a" is restored,
    "b" fails, the command leaves with status 1 and nothing, not even "a",
    was written to the output stream. *)
Lemma restore_writes_nothing_on_failure :
  ∃ r t,
    criocr.restoreAction (demo.remote ["b"]) (demo.command_line ["a"; "b"]) tt =
      (Done r, tt, t)
    ∧ In (EvRPC "RestoreContainer" "a" true) t
    ∧ criocr.exit_status r ≠ 0%Z
    ∧ ∀ text, ¬ In (EvStdout text) t.
Proof.
  eexists _, _. split; [vm_compute; reflexivity|].
  split; [cbn; tauto|]. split; [discriminate|].
  intros text Hin. cbn in Hin. intuition discriminate.
Qed.

(** ** Rehydration *)

(** *** Computations that reserve no name *)

Lemma silent_nil : lib.silent [].
Proof. intros i n k []. Qed.

Lemma silent_app t1 t2 : lib.silent t1 → lib.silent t2 → lib.silent (t1 ++ t2).
Proof. intros H1 H2 i n k [H|H]%in_app_or; [by eapply H1|by eapply H2]. Qed.

Lemma silent_cons e t :
  (∀ i n k, e ≠ EvReserve i n k true) → lib.silent t → lib.silent (e :: t).
Proof. intros He Ht i n k [H|H]; [by eapply He|by eapply Ht]. Qed.

Ltac solve_silent :=
  repeat first [ apply silent_nil
               | apply silent_app
               | apply silent_cons; [intros; discriminate|]
               | eassumption ].

Section quiet.
Context {S : Type}.
Implicit Types t : list event.

Lemma quiet_ret {R A} (a : A) : lib.quiet (mret a : M S event R A).
Proof. intros s x s' t [= _ _ <-]. apply silent_nil. Qed.

Lemma quiet_return {R A} (r : R) : lib.quiet (return_ r : M S event R A).
Proof. intros s x s' t [= _ _ <-]. apply silent_nil. Qed.

Lemma quiet_panic {R A} : lib.quiet (panic : M S event R A).
Proof. intros s x s' t [= _ _ <-]. apply silent_nil. Qed.

Lemma quiet_gets {R A} (f : S → A) : lib.quiet (gets f : M S event R A).
Proof. intros s x s' t [= _ _ <-]. apply silent_nil. Qed.

Lemma quiet_modify {R} (f : S → S) : lib.quiet (modify f : M S event R unit).
Proof. intros s x s' t [= _ _ <-]. apply silent_nil. Qed.

Lemma quiet_emit {R} (e : event) :
  (∀ i n k, e ≠ EvReserve i n k true) → lib.quiet (emit e : M S event R unit).
Proof. intros He s x s' t [= _ _ <-]. by apply silent_cons; [|apply silent_nil]. Qed.

Lemma quiet_check {R} err (f : error → R) : lib.quiet (check err f : M S event R unit).
Proof. destruct err; [apply quiet_return|apply quiet_ret]. Qed.

Lemma quiet_try {R A} (v : error + A) (f : error → R) :
  lib.quiet (try_ v f : M S event R A).
Proof. destruct v; [apply quiet_return|apply quiet_ret]. Qed.

Lemma quiet_return_if {R} b (r : R) : lib.quiet (return_if b r : M S event R unit).
Proof. destruct b; [apply quiet_return|apply quiet_ret]. Qed.

Lemma quiet_host_call {R Host A} geth seth e (f : Host → A * Host) :
  (∀ i n k, e ≠ EvReserve i n k true) →
  lib.quiet (host_call geth seth e f : M S event R A).
Proof.
  intros He s x s' t. unfold host_call. destruct (f (geth s)).
  intros [= _ _ <-]. by apply silent_cons; [|apply silent_nil].
Qed.

Lemma quiet_bind {R A B} (m : M S event R A) (k : A → M S event R B) :
  lib.quiet m → (∀ a, lib.quiet (k a)) → lib.quiet (m ≫= k).
Proof.
  intros Hm Hk s x s' t. unfold mbind, M_bind, bind.
  destruct (m s) as [[[a|r|] s1] t1] eqn:Em.
  - destruct (k a s1) as [[o s2] t2] eqn:Ek. intros [= _ _ <-].
    apply silent_app; [by eapply Hm|by eapply Hk].
  - intros [= _ _ <-]. by eapply Hm.
  - intros [= _ _ <-]. by eapply Hm.
Qed.

Lemma quiet_fn {R} (body : M S event R Empty_set) : lib.quiet body → lib.quiet (fn body).
Proof.
  intros Hb s x s' t. unfold fn.
  destruct (body s) as [[[[]|r|] s1] t1] eqn:Eb; intros [= _ _ <-]; by eapply Hb.
Qed.

Lemma quiet_proc (body : M S event unit unit) : lib.quiet body → lib.quiet (proc body).
Proof.
  intros Hb s x s' t. unfold proc.
  destruct (body s) as [[[a|r|] s1] t1] eqn:Eb; intros [= _ _ <-]; by eapply Hb.
Qed.

Lemma quiet_call {R R'} (f : Fn S event R') :
  lib.quiet f → lib.quiet (call f : M S event R R').
Proof.
  intros Hf s x s' t. unfold call.
  destruct (f s) as [[[r|] s1] t1] eqn:Ef; intros [= _ _ <-]; by eapply Hf.
Qed.

Lemma quiet_defer {R A} (zero : R) (h : R → Fn S event unit) (rest : M S event R A) :
  (∀ r, lib.quiet (h r)) → lib.quiet rest → lib.quiet (defer_ zero h rest).
Proof.
  intros Hh Hrest s x s' t. unfold defer_.
  destruct (rest s) as [[[a|r|] s1] t1] eqn:Er.
  - intros [= _ _ <-]. by eapply Hrest.
  - destruct (h r s1) as [[[[]|] s2] t2] eqn:Eh; intros [= _ _ <-];
      (apply silent_app; [by eapply Hrest|by eapply Hh]).
  - destruct (h zero s1) as [[x2 s2] t2] eqn:Eh; intros [= _ _ <-].
    apply silent_app; [by eapply Hrest|by eapply Hh].
Qed.
End quiet.

(** Proves [lib.quiet] of a statement built from the statements above. *)
Ltac solve_quiet :=
  repeat first
    [ apply quiet_ret | apply quiet_return | apply quiet_panic
    | apply quiet_gets | apply quiet_modify
    | apply quiet_check | apply quiet_try | apply quiet_return_if
    | apply quiet_emit; intros; discriminate
    | apply quiet_host_call; intros; discriminate
    | apply quiet_call
    | apply quiet_defer; [intros ?; apply quiet_proc|]
    | apply quiet_bind; [|intros ?]
    | assumption
    | match goal with
      | |- lib.quiet (match ?x with _ => _ end) => destruct x
      | |- lib.quiet (let _ := _ in _) => cbv zeta
      | |- lib.quiet ((λ _, _) _) => cbv beta
      end ].

Section quiet_server.
Context {Host TruncIndex : Type} (ops : Collab Host TruncIndex).
Implicit Types c : lib.ContainerServer (Host := Host) (TruncIndex := TruncIndex).

Lemma quiet_on_host {R A} e (f : Host → A * Host) :
  (∀ i n k, e ≠ EvReserve i n k true) →
  lib.quiet (lib.on_host e f : M (lib.ContainerServer (TruncIndex := TruncIndex))
                                 event R A).
Proof. apply quiet_host_call. Qed.

Lemma quiet_deref {R A} (p : option A) :
  lib.quiet (lib.deref p : M (lib.ContainerServer (Host := Host)
                                (TruncIndex := TruncIndex)) event R A).
Proof. destruct p; [apply quiet_ret|apply quiet_panic]. Qed.

Lemma quiet_modify_state {R} f :
  lib.quiet (lib.modify_state f
             : M (lib.ContainerServer (Host := Host) (TruncIndex := TruncIndex))
                 event R unit).
Proof. apply quiet_modify. Qed.

Lemma quiet_ctrIDIndex_Add {R} id :
  lib.quiet (lib.ctrIDIndex_Add ops id : M _ event R (option error)).
Proof.
  intros c x c' t. unfold lib.ctrIDIndex_Add.
  destruct (truncindex_Add ops id (lib.ctrIDIndex c)).
  intros [= _ _ <-]. solve_silent.
Qed.

Lemma quiet_podIDIndex_Add {R} id :
  lib.quiet (lib.podIDIndex_Add ops id : M _ event R (option error)).
Proof.
  intros c x c' t. unfold lib.podIDIndex_Add.
  destruct (truncindex_Add ops id (lib.podIDIndex c)).
  intros [= _ _ <-]. solve_silent.
Qed.

(** A method of a local object reserves nothing when it does not. *)
Lemma quiet_with_obj {O R A} (o : O) (f : Fn (O * Host) event A) :
  lib.quiet f →
  lib.quiet (lib.with_obj o f
             : M (lib.ContainerServer (TruncIndex := TruncIndex)) event R (A * O)).
Proof.
  intros Hf c x c' t. unfold lib.with_obj.
  destruct (f (o, lib.host c)) as [[[a|] [o' h]] t1] eqn:Ef;
    intros [= _ _ <-]; by eapply Hf.
Qed.

Lemma quiet_getNamespace nsPath : lib.quiet (sandbox.getNamespace ops nsPath).
Proof.
  unfold sandbox.getNamespace, sandbox.on_host. apply quiet_fn. solve_quiet.
Qed.

Lemma quiet_join k nsPath : lib.quiet (sandbox.join ops k nsPath).
Proof.
  unfold sandbox.join. apply quiet_fn. apply quiet_bind; [solve_quiet|intros sb].
  apply quiet_bind; [|intros [nsh err]; solve_quiet].
  intros [sb0 h] x s' t. cbn.
  destruct (sandbox.nsJoin ops nsPath k (sb_ns sb !! k) h) as [[[r|] h1] t1] eqn:Ej;
    intros [= _ _ <-]; revert Ej; unfold sandbox.nsJoin;
    apply quiet_fn; destruct (sb_ns sb !! k); solve_quiet;
    apply quiet_getNamespace.
Qed.
End quiet_server.

(** Proves [lib.quiet] of the statements of the server. *)
Ltac solve_quiet_server :=
  repeat first
    [ apply quiet_on_host; intros; discriminate
    | apply quiet_deref | apply quiet_modify_state
    | apply quiet_ctrIDIndex_Add | apply quiet_podIDIndex_Add
    | apply quiet_with_obj; apply quiet_join
    | progress solve_quiet ].

Section quiet_methods.
Context {Host TruncIndex : Type} (ops : Collab Host TruncIndex).
Implicit Types c : lib.ContainerServer (Host := Host) (TruncIndex := TruncIndex).

Lemma quiet_AddContainer ctr :
  lib.quiet (lib.AddContainer (Host := Host) (TruncIndex := TruncIndex) ctr).
Proof. unfold lib.AddContainer. apply quiet_proc. solve_quiet_server. Qed.

Lemma quiet_GetSandbox id :
  lib.quiet (lib.GetSandbox (Host := Host) (TruncIndex := TruncIndex) id).
Proof. unfold lib.GetSandbox. apply quiet_fn. solve_quiet_server. Qed.

Lemma quiet_addSandboxPlatform sb : lib.quiet (lib.addSandboxPlatform ops sb).
Proof.
  apply quiet_fn. intros c x c' t.
  destruct (platform_addSandbox ops sb _) as [err [pl h]].
  intros [= _ _ <-]. solve_silent.
Qed.

Lemma quiet_removeSandboxPlatform sb : lib.quiet (lib.removeSandboxPlatform ops sb).
Proof.
  unfold lib.removeSandboxPlatform. apply quiet_fn. solve_quiet_server.
Qed.

Lemma quiet_AddSandbox sb : lib.quiet (lib.AddSandbox ops sb).
Proof.
  unfold lib.AddSandbox. apply quiet_fn. solve_quiet_server.
  apply quiet_addSandboxPlatform.
Qed.

Lemma quiet_RemoveSandbox id : lib.quiet (lib.RemoveSandbox ops id).
Proof.
  unfold lib.RemoveSandbox. apply quiet_fn. solve_quiet_server.
  apply quiet_removeSandboxPlatform.
Qed.

Lemma quiet_ContainerStateFromDisk ctr : lib.quiet (lib.ContainerStateFromDisk ops ctr).
Proof. unfold lib.ContainerStateFromDisk. apply quiet_fn. solve_quiet_server. Qed.

Lemma quiet_ContainerStateToDisk ctr : lib.quiet (lib.ContainerStateToDisk ops ctr).
Proof. unfold lib.ContainerStateToDisk. apply quiet_fn. solve_quiet_server. Qed.

Lemma quiet_configNsPath m nsType :
  lib.quiet (lib.configNsPath (Host := Host) (TruncIndex := TruncIndex) m nsType).
Proof. unfold lib.configNsPath. apply quiet_fn. solve_quiet_server. Qed.

Lemma quiet_load_join m nsType k sb :
  lib.quiet (lib.load_join (TruncIndex := TruncIndex) m nsType
               (sandbox.join ops k) sb).
Proof.
  unfold lib.load_join. solve_quiet_server. apply quiet_configNsPath.
Qed.

Lemma quiet_write_through {R} sb :
  lib.quiet (lib.write_through sb
             : M (lib.ContainerServer (Host := Host) (TruncIndex := TruncIndex))
                 event R unit).
Proof. unfold lib.write_through. solve_quiet_server. Qed.

(** *** Registrars left alone *)

Lemma name_index_set_host i (h : Host) c :
  lib.name_index i (lib.set_host h c) = lib.name_index i c.
Proof. by destruct i. Qed.

Lemma name_index_set_state i st c :
  lib.name_index i (lib.set_state st c) = lib.name_index i c.
Proof. by destruct i. Qed.

(** RemoveSandbox reserves nothing and leaves both registrars alone. *)
Lemma keeps_RemoveSandbox id : lib.keeps (lib.RemoveSandbox ops id).
Proof.
  intros c x c' t Hrun. split; [by eapply quiet_RemoveSandbox|].
  intros i. revert Hrun.
  unfold lib.RemoveSandbox, lib.modify_state, oci.Get.
  unfold_go.
  destruct (lib.sandboxes (lib.state c) !! id) as [sb|]; cbn.
  - pose proof (removeSandboxPlatform_run ops sb c) as Hclean.
    destruct (selinux_level ops (sandbox.ProcessLabel sb)) as [e|level].
    + rewrite Hclean. cbn. by intros [= _ <- _].
    + destruct Hclean as (pl & h & t' & ->). cbn.
      intros [= _ <- _]. by destruct i.
  - by intros [= _ <- _].
Qed.
End quiet_methods.

(** Proves [lib.quiet] of the statements of LoadSandbox and LoadContainer. *)
Ltac solve_quiet_load :=
  repeat first
    [ apply quiet_AddContainer | apply quiet_GetSandbox
    | apply quiet_AddSandbox | apply quiet_RemoveSandbox
    | apply quiet_ContainerStateFromDisk | apply quiet_ContainerStateToDisk
    | apply quiet_load_join | apply quiet_write_through
    | apply quiet_configNsPath
    | progress solve_quiet_server ].

(** *** Stepping through a function *)

Section steps.
Context {S E : Type}.

Lemma bind_next {R A B} (m : M S E R A) (k : A → M S E R B) s a s1 t1 :
  m s = (Next a, s1, t1) →
  (m ≫= k) s = match k a s1 with (o, s2, t2) => (o, s2, t1 ++ t2) end.
Proof. intros Hm. unfold mbind, M_bind, bind. by rewrite Hm. Qed.

Lemma bind_ret {R A B} (m : M S E R A) (k : A → M S E R B) s r s1 t1 :
  m s = (Ret r, s1, t1) → (m ≫= k) s = (Ret r, s1, t1).
Proof. intros Hm. unfold mbind, M_bind, bind. by rewrite Hm. Qed.

Lemma fn_ret {R} (body : M S E R Empty_set) s r s1 t1 :
  body s = (Ret r, s1, t1) → fn body s = (Done r, s1, t1).
Proof. intros Hb. unfold fn. by rewrite Hb. Qed.

(** A function that has made the calls [t1] has a trace that starts with
    them. *)
Lemma fn_prefix {R} (body : M S E R Empty_set) s :
  ∀ o s1 t1, body s = (o, s1, t1) → ∃ r, fn body s = (r, s1, t1).
Proof.
  intros o s1 t1 Hb. unfold fn. rewrite Hb. destruct o as [[]|r|]; by eexists.
Qed.
End steps.

(** *** Names released on failure *)

Section releases.
Context {Host TruncIndex : Type} (ops : Collab Host TruncIndex).
Implicit Types c : lib.ContainerServer (Host := Host) (TruncIndex := TruncIndex).

Lemma name_index_set_other i j v c :
  lib.name_index j (lib.set_name_index i v c) =
    if decide (i = j) then v else lib.name_index j c.
Proof. destruct i, j; by repeat case_decide. Qed.

Lemma releases_quiet {A} (m : M _ event (option error) A) :
  lib.quiet m → lib.releases (TruncIndex := TruncIndex) (Host := Host) m.
Proof.
  intros Hq c c' t e Hrun i n k Hin. exfalso. by eapply (Hq _ _ _ _ Hrun).
Qed.

Lemma releases_bind_quiet {A B} (m : M _ event (option error) A)
    (k : A → M _ event (option error) B) :
  lib.quiet m → (∀ a, lib.releases (k a)) →
  lib.releases (TruncIndex := TruncIndex) (Host := Host) (m ≫= k).
Proof.
  intros Hm Hk c c' t e. unfold mbind, M_bind, bind.
  destruct (m c) as [[[a|r|] c1] t1] eqn:Em.
  - destruct (k a c1) as [[o c2] t2] eqn:Ek. intros [= -> <- <-].
    intros i n key [Hin|Hin]%in_app_or.
    + exfalso. by eapply (Hm _ _ _ _ Em).
    + by eapply (Hk _ _ _ _ _ Ek).
  - intros [= -> <- <-]. intros i n key Hin. exfalso. by eapply (Hm _ _ _ _ Em).
  - done.
Qed.

Lemma releases_defer_keeps {A} (h : option error → Fn _ event unit)
    (rest : M _ event (option error) A) :
  (∀ r, lib.keeps (h r)) → lib.releases rest →
  lib.releases (TruncIndex := TruncIndex) (Host := Host) (defer_ None h rest).
Proof.
  intros Hh Hrest c c' t e. unfold defer_.
  destruct (rest c) as [[[a|r|] c1] t1] eqn:Er.
  - done.
  - destruct (h r c1) as [[[[]|] c2] t2] eqn:Eh; [|done].
    intros [= -> <- <-]. destruct (Hh _ _ _ _ _ Eh) as [Hsilent Hsame].
    intros i n key [Hin|Hin]%in_app_or.
    + rewrite Hsame. by eapply (Hrest _ _ _ _ Er).
    + exfalso. by eapply Hsilent.
  - by destruct (h None c1) as [[x c2] t2].
Qed.

(** The pattern of both loaders: reserve a name, give up if that fails, and
    from then on release the name whenever the function returns an error. *)
Lemma releases_reserve_defer {A} i id n
    (rest : string → M _ event (option error) A) :
  (∀ name, lib.releases (rest name)) →
  lib.releases (TruncIndex := TruncIndex) (Host := Host)
    ('(name, err) ← call (lib.ReserveName i id n);
     check err Some;;
     defer_ None
       (λ retErr, proc (if retErr is Some _ then call (lib.ReleaseName i name)
                        else mret tt))
       (rest name)).
Proof.
  intros Hrest c c' t e.
  destruct (ReserveName_run i id n c) as [fmt Hreserve].
  unfold mbind at 1, M_bind at 1, bind at 1, call at 1. rewrite Hreserve.
  destruct (registrar.Reserve n id (lib.name_index i c)) as [[e0|] r].
  - unfold check, mbind, M_bind, bind, return_. cbn.
    intros [= <- <- <-]. intros i' n' k' [H|[H|[]]]; discriminate.
  - unfold check, mbind, M_bind, bind, mret, M_ret, unit_, defer_, proc. cbn.
    destruct (rest n (lib.set_name_index i r c)) as [[[a|[e1|]|] c2] t2] eqn:Er;
      cbn.
    + done.
    + unfold call. rewrite ReleaseName_run. cbn. intros [= -> <- <-].
      intros i' n' k' [H|H]; [injection H as <- <- <-|].
      * rewrite name_index_set. apply lookup_delete_eq.
      * apply in_app_or in H as [H|[H|[]]]; [|discriminate].
        rewrite name_index_set_other.
        pose proof (Hrest _ _ _ _ _ Er _ _ _ H) as Hfree.
        destruct (decide (i = i')) as [<-|]; [|done].
        unfold registrar.Release. by apply lookup_delete_None; right.
    + done.
    + done.
Qed.

Lemma releases_fn (body : M _ event (option error) Empty_set) c c' t e :
  lib.releases body →
  fn body c = (Done (Some e), c', t) →
  lib.all_released (TruncIndex := TruncIndex) (Host := Host) t c'.
Proof.
  intros Hb. unfold fn. destruct (body c) as [[[[]|r|] c1] t1] eqn:Eb; [|done].
  intros [= -> <- <-]. by eapply Hb.
Qed.
End releases.

Section handlers.
Context {Host TruncIndex : Type} (ops : Collab Host TruncIndex).

(** The deferred removal of the sandbox reserves nothing and leaves both
    registrars alone. *)
Lemma keeps_remove_on_error id (retErr : option error) :
  lib.keeps
    (proc (if retErr is Some _ then
             err ← call (lib.RemoveSandbox ops id);
             if err is Some _
             then emit (EvWarn "could not remove sandbox ID")
             else mret tt
           else mret tt)).
Proof.
  intros c x c' t. destruct retErr as [e|].
  - unfold proc, mbind, M_bind, bind, call, emit, mret, M_ret, unit_.
    destruct (lib.RemoveSandbox ops id c) as [[[[e1|]|] c1] t1] eqn:Erm;
      intros [= _ <- <-];
      destruct (keeps_RemoveSandbox ops id _ _ _ _ Erm) as [Hsilent Hsame];
      (split; [solve_silent|exact Hsame]).
  - intros [= _ <- <-]. split; [apply silent_nil|done].
Qed.
End handlers.

(** Walks down a loader: statements that reserve nothing, the reservation
    of a name with its deferred release, the deferred removal of the
    sandbox. *)
Ltac solve_releases :=
  repeat first
    [ apply releases_quiet; solve [solve_quiet_load]
    | apply releases_bind_quiet; [solve [solve_quiet_load] | intros ?]
    | apply (releases_reserve_defer CtrNameIndex); intros ?
    | apply (releases_reserve_defer PodNameIndex); intros ?
    | apply releases_defer_keeps; [intros ?; apply keeps_remove_on_error|]
    | match goal with
      | |- lib.releases (match ?x with _ => _ end) => destruct x
      | |- lib.releases (let _ := _ in _) => cbv zeta
      | |- lib.releases ((λ _, _) _) => cbv beta
      end ].

Section loaders.
Context {Host TruncIndex : Type} (ops : Collab Host TruncIndex).
Implicit Types c : lib.ContainerServer (Host := Host) (TruncIndex := TruncIndex).

(** C2. When LoadContainer or LoadSandbox returns an error, every name
    whose reservation succeeded during the call (the pod name, a container
    name) is free in the registrar it was reserved in when the call
    returns. *)
Theorem failed_load_releases_names id c c' t e :
  (lib.LoadContainer ops id c = (Done (Some e), c', t) → lib.all_released t c')
  ∧ (lib.LoadSandbox ops id c = (Done (Some e), c', t) → lib.all_released t c').
Proof.
  split.
  - apply releases_fn. solve_releases.
  - apply releases_fn. solve_releases.
Qed.
End loaders.

Lemma failed_load_releases_names_witness :
  ∃ c' t e,
    lib.LoadContainer demo.ops "c-orphan" demo.server0 = (Done (Some e), c', t)
    ∧ In (EvReserve CtrNameIndex "c2" "c-orphan" true) t
    ∧ lib.all_released t c'.
Proof.
  eexists _, _, _. split; [vm_compute; reflexivity|]. split; [cbn; tauto|].
  refine (proj1 (failed_load_releases_names demo.ops "c-orphan" demo.server0 _ _ _) _).
  vm_compute. reflexivity.
Defined.

(** A pod whose config.json has no creation time: both names are reserved,
    the load fails, the container name is released, the sandbox is taken
    out of the store again and the pod name is released. *)
Example LoadSandbox_undated_run :
  ∃ c' e,
    lib.LoadSandbox demo.ops "sb2" demo.server0 =
      (Done (Some e), c',
       [EvCall "store.FromContainerDirectory" ["sb2"; "config.json"];
        EvReserve PodNameIndex "pod-b" "sb2" true;
        EvStoreAdd Sandboxes "sb2";
        EvLock StateLock; EvAddSandboxPlatform "sb2"; EvUnlock StateLock;
        EvCall "store.ContainerRunDirectory" ["sb2"];
        EvCall "store.ContainerDirectory" ["sb2"];
        EvReserve CtrNameIndex "k8s_POD_pod-a" "infra1" true;
        EvRelease CtrNameIndex "k8s_POD_pod-a";
        EvLock StateLock; EvRemoveSandboxPlatform "sb2";
        EvCall "label.ReleaseLabel" [""];
        EvStoreDelete Sandboxes "sb2"; EvUnlock StateLock;
        EvRelease PodNameIndex "pod-b"])
    ∧ lib.podNameIndex c' !! "pod-b" = None
    ∧ lib.ctrNameIndex c' !! "k8s_POD_pod-a" = None
    ∧ lib.sandboxes (lib.state c') !! "sb2" = None.
Proof. eexists _, _. split; [vm_compute; reflexivity|]. by vm_compute. Qed.

(** *** Containers of other managers *)

Section foreign.
Context {Host TruncIndex : Type} (ops : Collab Host TruncIndex).
Implicit Types c : lib.ContainerServer (Host := Host) (TruncIndex := TruncIndex).

(** C1, as the code has it. For a container directory whose config.json
    can be read and decoded: when the manager marker is present and is not
    this daemon's, LoadContainer stops with the non-managed sentinel right
    after reading the file, with nothing reserved and nothing added (the
    server is as before but for what the read did to the host); when the
    marker is absent, or is this daemon's, the check lets the container
    through, and LoadContainer goes on to decode the labels and reserve the
    container's name. *)
Theorem LoadContainer_skips_foreign c id doc m h1 :
  store_FromContainerDirectory ops id "config.json" (lib.host c) = (inr doc, h1) →
  json_Spec ops doc = inr m →
  (∀ manager,
     Annotations m !! annotations.ContainerManager = Some manager →
     manager ≠ lib.ContainerManagerCRIO →
     lib.LoadContainer ops id c =
       (Done (Some ErrIsNonCrioContainer), lib.set_host h1 c,
        [EvCall "store.FromContainerDirectory" [id; "config.json"]]))
  ∧ (Annotations m !! annotations.ContainerManager = None
     ∨ Annotations m !! annotations.ContainerManager = Some lib.ContainerManagerCRIO →
     ∀ labels, json_StringMap ops (ann m annotations.Labels) = inr labels →
     ∃ ok r c' t',
       lib.LoadContainer ops id c =
         (r, c',
          EvCall "store.FromContainerDirectory" [id; "config.json"]
          :: EvReserve CtrNameIndex (ann m annotations.Name) id ok :: t')).
Proof.
  intros Hread Hspec.
  assert (Hstep : lib.on_host (R := option error)
                    (EvCall "store.FromContainerDirectory" [id; "config.json"])
                    (store_FromContainerDirectory ops id "config.json") c
                  = (Next (inr doc), lib.set_host h1 c,
                     [EvCall "store.FromContainerDirectory" [id; "config.json"]])).
  { unfold lib.on_host, host_call. by rewrite Hread. }
  split.
  - intros manager Hmarker Hforeign.
    apply String.eqb_neq in Hforeign.
    unfold lib.LoadContainer. apply fn_ret.
    rewrite (bind_next _ _ _ _ _ _ Hstep). cbn [try_].
    erewrite bind_next by reflexivity. rewrite Hspec. cbn [try_].
    erewrite bind_next by reflexivity.
    erewrite bind_ret; [reflexivity|]. by rewrite Hmarker, Hforeign.
  - intros Hours labels Hlabels.
    assert (Hpass : match Annotations m !! annotations.ContainerManager with
                    | Some manager => negb (String.eqb manager lib.ContainerManagerCRIO)
                    | None => false
                    end = false).
    { by destruct Hours as [->| ->]. }
    unfold lib.LoadContainer.
    match goal with
    | |- ∃ ok r c' t', fn ?body c = _ =>
        assert (∃ ok o c' t', body c =
                  (o, c',
                   EvCall "store.FromContainerDirectory" [id; "config.json"]
                   :: EvReserve CtrNameIndex (ann m annotations.Name) id ok :: t'))
          as (ok & o & c' & t' & Hbody)
    end.
    { rewrite (bind_next _ _ _ _ _ _ Hstep). cbn [try_].
      erewrite bind_next by reflexivity. rewrite Hspec. cbn [try_].
      erewrite bind_next by reflexivity. rewrite Hpass. cbn [return_if].
      erewrite bind_next by reflexivity. rewrite Hlabels. cbn [try_].
      erewrite bind_next by reflexivity. cbv zeta.
      assert (∃ ok res c1 tl,
                lib.ReserveContainerName id (ann m annotations.Name)
                  (lib.set_host h1 c) =
                  (Done res, c1,
                   EvReserve CtrNameIndex (ann m annotations.Name) id ok :: tl))
        as (ok & res & c1 & tl & Hreserve).
      { destruct (ReserveName_run (Host := Host) (TruncIndex := TruncIndex)
                    CtrNameIndex id (ann m annotations.Name) (lib.set_host h1 c))
          as [fmt Hreserve].
        cbn [lib.ReserveName] in Hreserve. rewrite Hreserve.
        destruct (registrar.Reserve _ _ _) as [[e0|] r]; by eexists _, _, _, _. }
      unfold mbind at 1, M_bind at 1, bind at 1, call at 1. rewrite Hreserve.
      destruct res as [name err].
      match goal with
      | |- context [?rest c1] => destruct (rest c1) as [[o c'] t']
      end.
      cbn. by eexists _, _, _, _. }
    destruct (fn_prefix _ _ _ _ _ Hbody) as [r Hfn]. by exists ok, r, c', t'.
Qed.
End foreign.

Lemma LoadContainer_skips_foreign_witness :
  lib.LoadContainer demo.ops "c-podman" demo.server1 =
    (Done (Some ErrIsNonCrioContainer), demo.server1,
     [EvCall "store.FromContainerDirectory" ["c-podman"; "config.json"]]).
Proof.
  refine (proj1 (LoadContainer_skips_foreign demo.ops demo.server1 "c-podman"
                   "ctr-podman" _ demo.host0 eq_refl eq_refl) "libpod" _ _).
  - reflexivity.
  - discriminate.
Defined.

(** C1, as the spec has it, fails: a container directory without the manager
    marker is loaded by LoadContainer and added to the store. *)
Lemma LoadContainer_loads_unmarked :
  ∃ m c' t,
    demo.decode_Spec "ctr-unmarked" = inr m
    ∧ Annotations m !! annotations.ContainerManager = None
    ∧ lib.LoadContainer demo.ops "c-unmarked" demo.server1 = (Done None, c', t)
    ∧ (oci.ID <$> lib.containers (lib.state c') !! "c-unmarked") = Some "c-unmarked"
    ∧ lib.containers (lib.state demo.server1) !! "c-unmarked" = None.
Proof.
  eexists _, _, _. split; [reflexivity|]. split; [reflexivity|].
  split; [vm_compute; reflexivity|]. split; reflexivity.
Qed.

(** LoadSandbox does not look at the manager marker: a pod marked as another
    manager's is loaded and added to the store. *)
Example LoadSandbox_loads_foreign :
  ∃ m c' t,
    demo.decode_Spec "pod-podman" = inr m
    ∧ Annotations m !! annotations.ContainerManager = Some "libpod"
    ∧ lib.LoadSandbox demo.ops "sb1" demo.server0 = (Done None, c', t)
    ∧ (sandbox.ID <$> lib.sandboxes (lib.state c') !! "sb1") = Some "sb1".
Proof.
  eexists _, _, _. split; [reflexivity|]. split; [reflexivity|].
  split; [vm_compute; reflexivity|]. reflexivity.
Qed.

(** A config.json without a process section makes LoadSandbox panic on
    [m.Process.SelinuxLabel]; a panic is not an error return, and the
    deferred release, which looks at the named result, leaves the pod name
    reserved. *)
Example LoadSandbox_panics_without_process :
  ∃ c' t,
    lib.LoadSandbox demo.ops "sb3" demo.server0 = (Panicked, c', t)
    ∧ lib.podNameIndex c' !! "pod-c" = Some "sb3".
Proof. eexists _, _. split; [vm_compute; reflexivity|]. reflexivity. Qed.
